(** * Datadog provider: alert normalization, fingerprinting and webhook set-up

    A shallow embedding of [keep/providers/datadog_provider/datadog_provider.py]:
    the polled path [_get_alerts], the webhook path [format_alert], the severity
    table [__get_parsed_severity] and the provisioning routine [setup_webhook].

    Python values that the code only passes around are kept as [PyVal];
    dictionaries are [gmap]s; an exception is the [None] of an [option] (or an
    explicit error constructor where the code tells exceptions apart). *)

From stdpp Require Import gmap strings list fin_maps pretty.
From Stdlib Require Import ZArith Ascii.

Local Open Scope string_scope.
Local Open Scope Z_scope.

(** ** Python values *)

Inductive PyVal : Type :=
  | PyNone
  | PyStr (s : string)
  | PyInt (z : Z)
  | PyList (l : list string)
  | PyDict (d : list (string * string)).

#[global] Instance PyVal_eq_dec : EqDecision PyVal.
Proof. solve_decision. Defined.

(** Truth value of an object, as [if not x] tests it. *)
Definition py_truthy (v : PyVal) : bool :=
  match v with
  | PyNone => false
  | PyStr s => negb (bool_decide (s = ""))
  | PyInt z => negb (bool_decide (z = 0))
  | PyList l => negb (bool_decide (l = []))
  | PyDict d => negb (bool_decide (d = []))
  end.

(** ** The string methods the provider calls *)

Module Str.

(** [maxsplit] as Python counts it: [None] is "no limit". *)
Definition may_split (maxsplit : option nat) : bool :=
  match maxsplit with
  | Some O => false
  | _ => true
  end.

Definition one_less (maxsplit : option nat) : option nat :=
  match maxsplit with
  | Some n => Some (Nat.pred n)
  | None => None
  end.

(** [s.split(sep, maxsplit)] for a one-character separator, the only kind
    the provider uses ([" "], [","] and [":"]).  Adjacent separators give
    empty pieces and the empty string gives one empty piece. *)
Fixpoint split (sep : ascii) (maxsplit : option nat) (s : string) : list string :=
  match s with
  | EmptyString => [EmptyString]
  | String c rest =>
      if may_split maxsplit && bool_decide (c = sep)
      then EmptyString :: split sep (one_less maxsplit) rest
      else match split sep maxsplit rest with
           | w :: ws => String c w :: ws
           | [] => [String c EmptyString]
           end
  end.

(** [s.lstrip(c)]: drop every leading [c]. *)
Fixpoint lstrip (c : ascii) (s : string) : string :=
  match s with
  | EmptyString => EmptyString
  | String a rest => if bool_decide (a = c) then lstrip c rest else s
  end.

(** [s.rstrip(c)]: drop every trailing [c]. *)
Fixpoint rstrip (c : ascii) (s : string) : string :=
  match s with
  | EmptyString => EmptyString
  | String a rest =>
      match rstrip c rest with
      | EmptyString => if bool_decide (a = c) then EmptyString else String a EmptyString
      | kept => String a kept
      end
  end.

(** [c in s] for a character. *)
Fixpoint has_char (c : ascii) (s : string) : bool :=
  match s with
  | EmptyString => false
  | String a rest => bool_decide (a = c) || has_char c rest
  end.

Fixpoint starts_with (p s : string) : bool :=
  match p, s with
  | EmptyString, _ => true
  | String a p', String b s' => bool_decide (a = b) && starts_with p' s'
  | String _ _, EmptyString => false
  end.

(** [p in s] for strings. *)
Fixpoint contains (p s : string) : bool :=
  starts_with p s ||
  match s with
  | EmptyString => false
  | String _ rest => contains p rest
  end.

End Str.

(** [severity.lstrip("[").rstrip("]")] *)
Definition strip_brackets (s : string) : string :=
  Str.rstrip "]" (Str.lstrip "[" s).

(** Unpacking [a, b = xs] and [a, b, c = xs]: a [ValueError] unless the
    length is exactly right. *)
Definition unpack2 {A} (xs : list A) : option (A * A) :=
  match xs with
  | [a; b] => Some (a, b)
  | _ => None
  end.

Definition unpack3 {A} (xs : list A) : option (A * A * A) :=
  match xs with
  | [a; b; c] => Some (a, b, c)
  | _ => None
  end.

(** ** Severity table *)

(** [DatadogProvider.__get_parsed_severity]; falling off the end of the
    [if]/[elif] chain returns [None]. *)
Definition __get_parsed_severity (priority : PyVal) : option string :=
  if bool_decide (priority = PyStr "P1") then Some "critical"
  else if bool_decide (priority = PyStr "P2") then Some "high"
  else if bool_decide (priority = PyStr "P3") then Some "medium"
  else if bool_decide (priority = PyStr "P4") then Some "low"
  else None.

(** ** Data model *)

(** Modelled from the spec: the class [AlertDto] of [keep.api.models.alert]
    is imported by the provider and defined outside its module; its fields are
    those of the Canonical Alert of the data model.  A field the caller does
    not pass is [None]. *)
Module AlertDto.
Record t : Type := mk {
  id : PyVal;
  name : string;
  status : string;
  lastReceived : string;
  severity : option string;
  message : PyVal;
  monitor_id : PyVal;
  groups : list string;
  source : list string;
  tags : gmap string string;
  created_by : option string;
  url : PyVal;
  fingerprint : option string
}.

Definition of_option (o : option string) : PyVal :=
  match o with
  | Some s => PyStr s
  | None => PyNone
  end.

(** [alert.dict().get(field)] *)
Definition get (a : t) (field : string) : PyVal :=
  if bool_decide (field = "id") then id a
  else if bool_decide (field = "name") then PyStr (name a)
  else if bool_decide (field = "status") then PyStr (status a)
  else if bool_decide (field = "lastReceived") then PyStr (lastReceived a)
  else if bool_decide (field = "severity") then of_option (severity a)
  else if bool_decide (field = "message") then message a
  else if bool_decide (field = "monitor_id") then monitor_id a
  else if bool_decide (field = "groups") then PyList (groups a)
  else if bool_decide (field = "source") then PyList (source a)
  else if bool_decide (field = "tags") then PyDict (map_to_list (tags a))
  else if bool_decide (field = "created_by") then of_option (created_by a)
  else if bool_decide (field = "url") then url a
  else if bool_decide (field = "fingerprint") then of_option (fingerprint a)
  else PyNone.

(** [alert.fingerprint = fp] *)
Definition set_fingerprint (fp : string) (a : t) : t :=
  mk (id a) (name a) (status a) (lastReceived a) (severity a) (message a)
     (monitor_id a) (groups a) (source a) (tags a) (created_by a) (url a)
     (Some fp).
End AlertDto.

(** One entry of [monitor.matching_downtimes]. *)
Module MatchingDowntime.
Record t : Type := mk {
  groups : list string;
  scope : list string
}.
End MatchingDowntime.

Module Creator.
Record t : Type := mk { email : string }.
End Creator.

(** A monitor as [list_monitors(with_downtimes=True)] returns it. *)
Module Monitor.
Record t : Type := mk {
  id : Z;
  name : string;
  message : string;
  creator : option Creator.t;
  matching_downtimes : list MatchingDowntime.t
}.
End Monitor.

(** An event of the events API. *)
Module Event.
Record t : Type := mk {
  id : Z;
  title : string;
  text : string;
  tags : list string;
  date_happened : PyVal;
  monitor_id : Z;
  monitor_groups : list string
}.
End Event.

(** What [self.logger.exception(msg, extra={...})] records. *)
Module LogRecord.
Record t : Type := mk {
  msg : string;
  event_id : Z;
  monitor_id : Z
}.
End LogRecord.

(** [{k: v for k, v in pairs}]: a later pair overwrites an earlier one. *)
Definition dict_of_pairs {V} (pairs : list (string * V)) : gmap string V :=
  foldl (λ d kv, <[kv.1 := kv.2]> d) ∅ pairs.

(** [FINGERPRINT_FIELDS] *)
Definition FINGERPRINT_FIELDS : list string := ["groups"; "monitor_id"].

(** Modelled from the spec: the attribute [self.fingerprint_fields] is set by
    [BaseProvider], which is defined outside the provider's module; the fingerprint function
    is given the ordered field list [["groups", "monitor_id"]]. *)
Definition fingerprint_fields : list string := FINGERPRINT_FIELDS.

Section Normalizer.

(** [datetime.datetime.fromtimestamp(x).isoformat()], [None] when the
    conversion raises; it depends on the local time zone. *)
Variable fromtimestamp_isoformat : PyVal → option string.

(** [str(datetime.datetime.fromtimestamp(int(x) / 1000))], [None] when
    [int] or the conversion raises. *)
Variable fromtimestamp_ms_str : PyVal → option string.

(** The host platform's rule for combining the values of the fingerprint
    fields into a string. *)
Variable combine : list PyVal → string.

(** Modelled from the spec: [BaseProvider.get_alert_fingerprint] is defined
    outside the provider's module; it combines the values of exactly the listed fields,
    in that order, by the host platform's rule. *)
Definition get_alert_fingerprint (alert : AlertDto.t) (fields : list string) : string :=
  combine (map (AlertDto.get alert) fields).

(** *** The polled path *)

(** [{monitor.id: monitor for monitor in list_monitors(...)}] *)
Definition all_monitors_of (monitors : list Monitor.t) : gmap Z Monitor.t :=
  foldl (λ d m, <[Monitor.id m := m]> d) ∅ monitors.

(** The [tags] comprehension of [_get_alerts]. *)
Definition polled_tags (event_tags : list string) : option (gmap string string) :=
  pairs ← mapM (λ tag, unpack2 (Str.split ":" (Some 1%nat) tag))
               (List.filter (Str.has_char ":") event_tags);
  Some (dict_of_pairs pairs).

(** The condition of the [is_muted] comprehension. *)
Definition downtime_matches (event : Event.t) (downtime : MatchingDowntime.t) : bool :=
  bool_decide (MatchingDowntime.groups downtime = Event.monitor_groups event)
  || bool_decide (MatchingDowntime.scope downtime = ["*"]).

(** [any([downtime for downtime in ... if ...])]: the list holds the
    downtime objects themselves, which are truthy, so [any] is true exactly
    when the list is not empty. *)
Definition is_muted (monitor : Monitor.t) (event : Event.t) : bool :=
  match List.filter (downtime_matches event) (Monitor.matching_downtimes monitor) with
  | [] => false
  | _ :: _ => true
  end.

(** The body of the [try] in [_get_alerts]: [None] is a raised exception. *)
Definition normalize_event (all_monitors : gmap Z Monitor.t) (event : Event.t)
  : option AlertDto.t :=
  tags ← polled_tags (Event.tags event);
  '(severity, status, title) ← unpack3 (Str.split " " (Some 2%nat) (Event.title event));
  let severity := __get_parsed_severity (PyStr (strip_brackets severity)) in
  let status := strip_brackets status in
  received ← fromtimestamp_isoformat (Event.date_happened event);
  let monitor := all_monitors !! Event.monitor_id event in
  (* [monitor.matching_downtimes] on [None] raises AttributeError *)
  muted ← (m ← monitor; Some (is_muted m event));
  let alert :=
    AlertDto.mk
      (PyInt (Event.id event))
      title
      (if negb muted then status else "Muted")
      received
      severity
      (PyStr (Event.text event))
      (PyInt (Event.monitor_id event))
      (Event.monitor_groups event)
      ["datadog"]
      tags
      (match monitor with
       | Some m => match Monitor.creator m with
                   | Some c => Some (Creator.email c)
                   | None => None
                   end
       | None => None
       end)
      PyNone
      None in
  Some (AlertDto.set_fingerprint (get_alert_fingerprint alert fingerprint_fields) alert).

(** The [except Exception] handler. *)
Definition log_skipped (event : Event.t) : LogRecord.t :=
  LogRecord.mk "Could not parse alert event" (Event.id event) (Event.monitor_id event).

(** The [for event in events] loop, threading [formatted_alerts] and the
    logger's records. *)
Fixpoint get_alerts_loop (all_monitors : gmap Z Monitor.t) (events : list Event.t)
    (formatted_alerts : list AlertDto.t) (log : list LogRecord.t)
  : list AlertDto.t * list LogRecord.t :=
  match events with
  | [] => (formatted_alerts, log)
  | event :: rest =>
      match normalize_event all_monitors event with
      | Some alert => get_alerts_loop all_monitors rest (formatted_alerts ++ [alert]) log
      | None => get_alerts_loop all_monitors rest formatted_alerts (log ++ [log_skipped event])
      end
  end.

(** [_get_alerts], given what [list_monitors] and [list_events] answered. *)
Definition _get_alerts (monitors : list Monitor.t) (events : list Event.t)
  : list AlertDto.t * list LogRecord.t :=
  get_alerts_loop (all_monitors_of monitors) events [] [].

(** *** The webhook path *)

(** [d.get(key, default)] *)
Definition dict_get (d : gmap string PyVal) (key : string) (dflt : PyVal) : PyVal :=
  default dflt (d !! key).

(** The receiver of a [str] method call: anything but a [str] raises
    AttributeError. *)
Definition as_str (v : PyVal) : option string :=
  match v with
  | PyStr s => Some s
  | _ => None
  end.

(** [l.remove(x)]: drops the first [x]; ValueError when there is none. *)
Fixpoint list_remove (x : string) (l : list string) : option (list string) :=
  match l with
  | [] => None
  | y :: rest =>
      if bool_decide (y = x) then Some rest
      else rest' ← list_remove x rest; Some (y :: rest')
  end.

(** The [tags] comprehension of [format_alert]: [tag.split(":")] has no
    limit, and [k, v] unpacks exactly two pieces. *)
Definition webhook_tags (tags_list : list string) : option (gmap string string) :=
  pairs ← mapM (λ tag, unpack2 (Str.split ":" None tag)) tags_list;
  Some (dict_of_pairs pairs).

(** Lines 632-638 of [format_alert], which only read [event]. *)
Definition format_alert_parse (event : gmap string PyVal)
  : option (gmap string string * string * (string * string * string)) :=
  tags_str ← as_str (dict_get event "tags" (PyStr ""));
  tags_list ← list_remove "monitor" (Str.split "," None tags_str);
  tags ← webhook_tags tags_list;
  event_time ← fromtimestamp_ms_str (dict_get event "last_updated" PyNone);
  title_str ← as_str (dict_get event "title" PyNone);
  parts ← unpack3 (Str.split " " (Some 2%nat) title_str);
  Some (tags, event_time, parts).

(** [groups] from [scopes]. *)
Definition webhook_groups (scopes : PyVal) : option (list string) :=
  if negb (py_truthy scopes) then Some ["*"]
  else s ← as_str scopes; Some (Str.split "," None s).

(** Lines 642-666, run on the dictionary after [event.pop("url", None)]. *)
Definition format_alert_build (event : gmap string PyVal) (url : PyVal)
    (tags : gmap string string) (event_time severity status title : string)
  : option AlertDto.t :=
  groups ← webhook_groups (dict_get event "scopes" (PyStr ""));
  let alert :=
    AlertDto.mk
      (dict_get event "id" PyNone)
      title
      (strip_brackets status)
      event_time
      (__get_parsed_severity (dict_get event "severity" (PyStr severity)))
      (dict_get event "body" PyNone)
      (dict_get event "monitor_id" PyNone)
      groups
      ["datadog"]
      tags
      None
      url
      None in
  Some (AlertDto.set_fingerprint (get_alert_fingerprint alert FINGERPRINT_FIELDS) alert).

(** [format_alert]: the caller's dictionary as the call leaves it, and the
    alert, or [None] when the call raised. *)
Definition format_alert (event : gmap string PyVal)
  : gmap string PyVal * option AlertDto.t :=
  match format_alert_parse event with
  | None => (event, None)
  | Some (tags, event_time, (severity, status, title)) =>
      let url := dict_get event "url" PyNone in
      let event := delete "url" event in
      (event, format_alert_build event url tags event_time severity status title)
  end.

(** Whether the [try] body raises on an event. *)
Definition raises (all_monitors : gmap Z Monitor.t) (event : Event.t) : bool :=
  match normalize_event all_monitors event with
  | Some _ => false
  | None => true
  end.

(** An alert of the polled path. *)
Definition from_polled (a : AlertDto.t) : Prop :=
  ∃ monitors events,
    a ∈ (_get_alerts monitors events).1.

(** An alert of the webhook path. *)
Definition from_webhook (a : AlertDto.t) : Prop :=
  ∃ event, (format_alert event).2 = Some a.

End Normalizer.

(** ** Webhook provisioning *)

(** A JSON value, kept as the object that [json.dumps] serialises. *)
#[local] Unset Elimination Schemes.
Inductive Json : Type :=
  | JStr (s : string)
  | JObj (fields : list (string * Json)).
#[local] Set Elimination Schemes.

(** [DatadogProviderAuthConfig.KEEP_DATADOG_WEBHOOK_INTEGRATION_NAME] *)
Definition KEEP_DATADOG_WEBHOOK_INTEGRATION_NAME : string :=
  "keep-datadog-webhook-integration".

(** [DatadogProvider.WEBHOOK_PAYLOAD] *)
Definition WEBHOOK_PAYLOAD : Json :=
  JObj [ ("body", JStr "$EVENT_MSG");
         ("last_updated", JStr "$LAST_UPDATED");
         ("event_type", JStr "$EVENT_TYPE");
         ("title", JStr "$EVENT_TITLE");
         ("severity", JStr "$ALERT_PRIORITY");
         ("alert_type", JStr "$ALERT_TYPE");
         ("alert_query", JStr "$ALERT_QUERY");
         ("alert_transition", JStr "$ALERT_TRANSITION");
         ("date", JStr "$DATE");
         ("scopes", JStr "$ALERT_SCOPE");
         ("org", JObj [("id", JStr "$ORG_ID"); ("name", JStr "$ORG_NAME")]);
         ("url", JStr "$LINK");
         ("tags", JStr "$TAGS");
         ("id", JStr "$ID");
         ("monitor_id", JStr "$ALERT_ID") ].

(** The [custom_headers] object of the request bodies. *)
Definition custom_headers_of (api_key : string) : Json :=
  JObj [("Content-Type", JStr "application/json"); ("X-API-KEY", JStr api_key)].

(** What the vendor keeps for a registered webhook; its name is the key it
    is registered under. *)
Module Registration.
Record t : Type := mk {
  url : string;
  custom_headers : Json;
  encode_as : option string;
  payload : Json
}.
End Registration.

(** A webhook as the vendor's client returns it. *)
Module Webhook.
Record t : Type := mk {
  name : string;
  url : string;
  custom_headers : Json;
  encode_as : option string;
  payload : Json
}.

Definition of_registration (webhook_name : string) (r : Registration.t) : t :=
  mk webhook_name (Registration.url r) (Registration.custom_headers r)
     (Registration.encode_as r) (Registration.payload r).
End Webhook.

(** The exceptions of the vendor's client: [NotFoundException] and
    [ForbiddenException] are [ApiException]s with their own class. *)
Inductive ApiStatus : Type := NotFound | Forbidden | OtherStatus.

Module ApiException.
Record t : Type := mk {
  status : ApiStatus;
  errors : list string
}.
End ApiException.

(** The calls that reach the vendor, in the order they are made. *)
Inductive ApiCall : Type :=
  | GetWebhook (webhook_name : string)
  | UpdateWebhook (webhook_name url : string)
  | CreateWebhook (webhook_name url : string)
  | ListMonitors
  | UpdateMonitor (monitor_id : Z) (message : string).

(** The vendor account the provider talks to: the webhook registry, keyed by
    name, the monitors, and what the credentials are allowed to do (the
    handlers of [setup_webhook] expect a refused lookup, a refused or
    conflicting create and a refused update). *)
Module Vendor.
Record t : Type := mk {
  webhooks : gmap string Registration.t;
  monitors : list Monitor.t;
  can_get_webhook : bool;
  can_create_webhook : bool;
  can_update_webhook : bool;
  can_list_monitors : bool;
  can_update_monitor : Z → bool
}.

Definition with_webhooks (w : gmap string Registration.t) (v : t) : t :=
  mk w (monitors v) (can_get_webhook v) (can_create_webhook v)
     (can_update_webhook v) (can_list_monitors v) (can_update_monitor v).

Definition with_monitors (ms : list Monitor.t) (v : t) : t :=
  mk (webhooks v) ms (can_get_webhook v) (can_create_webhook v)
     (can_update_webhook v) (can_list_monitors v) (can_update_monitor v).
End Vendor.

(** The state a call runs in: the vendor account and the calls made so far. *)
Module World.
Record t : Type := mk {
  vendor : Vendor.t;
  calls : list ApiCall
}.
End World.

(** Code that calls the vendor: it changes the world and either raises or
    returns. *)
Definition Api (A : Type) : Type := World.t → World.t * (ApiException.t + A).

#[global] Instance Api_ret : MRet Api := λ A x w, (w, inr x).
#[global] Instance Api_bind : MBind Api := λ A B f m w,
  match m w with
  | (w', inr x) => f x w'
  | (w', inl e) => (w', inl e)
  end.

Definition raise {A} (e : ApiException.t) : Api A := λ w, (w, inl e).

(** [try: body except ...: handler] *)
Definition try_except {A} (body : Api A) (handler : ApiException.t → Api A) : Api A :=
  λ w, match body w with
       | (w', inl e) => handler e w'
       | r => r
       end.

(** One request: note the call, then let the vendor answer. *)
Definition request {A} (c : ApiCall) (answer : Vendor.t → ApiException.t + (Vendor.t * A))
  : Api A :=
  λ w, let w1 := World.mk (World.vendor w) (World.calls w ++ [c]) in
       match answer (World.vendor w) with
       | inl e => (w1, inl e)
       | inr (v', x) => (World.mk v' (World.calls w1), inr x)
       end.

Definition forbidden : ApiException.t := ApiException.mk Forbidden ["Forbidden"].
Definition not_found : ApiException.t := ApiException.mk NotFound ["Not found"].
Definition already_exists : ApiException.t :=
  ApiException.mk OtherStatus ["Webhook already exists"].

Definition get_webhooks_integration (webhook_name : string) : Api Webhook.t :=
  request (GetWebhook webhook_name) (λ v,
    if negb (Vendor.can_get_webhook v) then inl forbidden
    else match Vendor.webhooks v !! webhook_name with
         | Some r => inr (v, Webhook.of_registration webhook_name r)
         | None => inl not_found
         end).

Definition update_webhooks_integration (webhook_name url : string)
    (custom_headers payload : Json) : Api unit :=
  request (UpdateWebhook webhook_name url) (λ v,
    if negb (Vendor.can_update_webhook v) then inl forbidden
    else match Vendor.webhooks v !! webhook_name with
         | Some r =>
             let r' := Registration.mk url custom_headers (Registration.encode_as r)
                                       payload in
             inr (Vendor.with_webhooks (<[webhook_name := r']> (Vendor.webhooks v)) v, tt)
         | None => inl not_found
         end).

Definition create_webhooks_integration (webhook_name url : string)
    (custom_headers : Json) (encode_as : string) (payload : Json) : Api Webhook.t :=
  request (CreateWebhook webhook_name url) (λ v,
    if negb (Vendor.can_create_webhook v) then inl forbidden
    else match Vendor.webhooks v !! webhook_name with
         | Some _ => inl already_exists
         | None =>
             let r := Registration.mk url custom_headers (Some encode_as) payload in
             inr (Vendor.with_webhooks (<[webhook_name := r]> (Vendor.webhooks v)) v,
                  Webhook.of_registration webhook_name r)
         end).

Definition list_monitors : Api (list Monitor.t) :=
  request ListMonitors (λ v,
    if negb (Vendor.can_list_monitors v) then inl forbidden
    else inr (v, Vendor.monitors v)).

Definition set_message (monitor_id : Z) (message : string) (m : Monitor.t) : Monitor.t :=
  if bool_decide (Monitor.id m = monitor_id)
  then Monitor.mk (Monitor.id m) (Monitor.name m) message (Monitor.creator m)
                  (Monitor.matching_downtimes m)
  else m.

Definition update_monitor (monitor_id : Z) (message : string) : Api unit :=
  request (UpdateMonitor monitor_id message) (λ v,
    if negb (Vendor.can_update_monitor v monitor_id) then inl forbidden
    else inr (Vendor.with_monitors (set_message monitor_id message <$> Vendor.monitors v) v, tt)).

(** [except (NotFoundException, ForbiddenException)] *)
Definition not_found_or_forbidden (e : ApiException.t) : bool :=
  match ApiException.status e with
  | NotFound | Forbidden => true
  | OtherStatus => false
  end.

(** The first half of [setup_webhook]: create or update the registration. *)
Definition setup_webhook_registration (webhook_name keep_api_url api_key : string)
  : Api unit :=
  try_except
    (webhook ← get_webhooks_integration webhook_name;
     if negb (bool_decide (Webhook.url webhook = keep_api_url))
     then update_webhooks_integration (Webhook.name webhook) keep_api_url
            (custom_headers_of api_key) WEBHOOK_PAYLOAD
     else mret tt)
    (λ e,
      if not_found_or_forbidden e then
        try_except
          (_ ← create_webhooks_integration webhook_name keep_api_url
                 (custom_headers_of api_key) "json" WEBHOOK_PAYLOAD;
           mret tt)
          (λ exc,
            if bool_decide ("Webhook already exists" ∈ ApiException.errors exc) then
              try_except
                (update_webhooks_integration webhook_name keep_api_url
                   (custom_headers_of api_key) WEBHOOK_PAYLOAD)
                (λ _, mret tt)
            else raise exc)
      else raise e).

(** The body of [for monitor in monitors]. *)
Definition setup_webhook_monitor (webhook_name : string) (monitor : Monitor.t) : Api unit :=
  try_except
    (let monitor_message := Monitor.message monitor in
     if negb (Str.contains ("@webhook-" +:+ webhook_name) monitor_message)
     then update_monitor (Monitor.id monitor)
            (monitor_message +:+ " @webhook-" +:+ webhook_name)
     else mret tt)
    (λ _, mret tt).

Fixpoint setup_webhook_monitors (webhook_name : string) (monitors : list Monitor.t)
  : Api unit :=
  match monitors with
  | [] => mret tt
  | monitor :: rest =>
      _ ← setup_webhook_monitor webhook_name monitor;
      setup_webhook_monitors webhook_name rest
  end.

(** [setup_webhook]; the logger's messages are left out. *)
Definition setup_webhook (tenant_id keep_api_url api_key : string) (setup_alerts : bool)
  : Api unit :=
  let webhook_name := KEEP_DATADOG_WEBHOOK_INTEGRATION_NAME +:+ "-" +:+ tenant_id in
  _ ← setup_webhook_registration webhook_name keep_api_url api_key;
  if setup_alerts then
    monitors ← list_monitors;
    setup_webhook_monitors webhook_name monitors
  else mret tt.

(** A call that writes to the webhook registry. *)
Definition is_webhook_write (c : ApiCall) : bool :=
  match c with
  | UpdateWebhook _ _ | CreateWebhook _ _ => true
  | _ => false
  end.

(** The two accounts have the same permissions. *)
Definition same_policy (v v' : Vendor.t) : Prop :=
  Vendor.can_get_webhook v' = Vendor.can_get_webhook v
  ∧ Vendor.can_create_webhook v' = Vendor.can_create_webhook v
  ∧ Vendor.can_update_webhook v' = Vendor.can_update_webhook v
  ∧ Vendor.can_list_monitors v' = Vendor.can_list_monitors v
  ∧ Vendor.can_update_monitor v' = Vendor.can_update_monitor v.

(** ** The rest of the provider *)

(** More of Python's string operations. *)
Module Text.

(** [sep.join(parts)] *)
Definition join (sep : string) (parts : list string) : string :=
  String.concat sep parts.

(** [s.count(c)] for a character. *)
Fixpoint count (c : ascii) (s : string) : nat :=
  match s with
  | EmptyString => O
  | String a rest => if bool_decide (a = c) then S (count c rest) else count c rest
  end.

(** [s[:-1]] *)
Fixpoint drop_last (s : string) : string :=
  match s with
  | EmptyString => EmptyString
  | String a EmptyString => EmptyString
  | String a rest => String a (drop_last rest)
  end.

(** [s[-1]]; IndexError on the empty string. *)
Fixpoint last (s : string) : option ascii :=
  match s with
  | EmptyString => None
  | String a EmptyString => Some a
  | String _ rest => last rest
  end.

End Text.

(** The table [seconds_per_unit] of [convert_to_seconds]; a missing key is a
    KeyError. *)
Definition seconds_per_unit (unit : ascii) : option Z :=
  if bool_decide (unit = "s"%char) then Some 1
  else if bool_decide (unit = "m"%char) then Some 60
  else if bool_decide (unit = "h"%char) then Some 3600
  else if bool_decide (unit = "d"%char) then Some 86400
  else if bool_decide (unit = "w"%char) then Some 604800
  else None.

Section Timeframe.

(** [int(s)] for a [str], [None] for its ValueError. *)
Variable int_of_str : string → option Z.

(** [DatadogProvider.convert_to_seconds]: the left operand of the product
    is evaluated first; whichever of the two fails, the call raises. *)
Definition convert_to_seconds (s : string) : option Z :=
  n ← int_of_str (Text.drop_last s);
  unit ← Text.last s;
  per_unit ← seconds_per_unit unit;
  Some (n * per_unit).

End Timeframe.

(** The arguments [mute_monitor] hands to the endpoint. *)
Module MuteCall.
Record t : Type := mk {
  monitor_id : Z;
  end_ : Z;
  scope : string
}.
End MuteCall.

(** The arguments [unmute_monitor] hands to the endpoint. *)
Module UnmuteCall.
Record t : Type := mk {
  monitor_id : Z;
  scope : string
}.
End UnmuteCall.

Section Muting.

(** [int(monitor_id)], [None] when it raises. *)
Variable int_of : PyVal → option Z.

(** [datetime.datetime] values, [datetime.fromisoformat] and
    [int(end.timestamp())]. *)
Variable Datetime : Type.
Variable fromisoformat : string → option Datetime.
Variable timestamp : Datetime → option Z.

(** The [end] argument: a string or a datetime. *)
Inductive EndArg : Type :=
  | EndStr (s : string)
  | EndDatetime (d : Datetime).

(** The scope [mute_monitor] sends for a list of groups. *)
Definition mute_scope (groups : list string) : string :=
  let groups := Text.join "," groups in
  if bool_decide (groups = "*") then "" else groups.

(** [mute_monitor] up to the endpoint call: the arguments of the call, or
    [None] when an exception was raised before it. *)
Definition mute_monitor (monitor_id : PyVal) (groups : list string) (end_ : EndArg)
  : option MuteCall.t :=
  end_ ← match end_ with
         | EndStr s => fromisoformat s
         | EndDatetime d => Some d
         end;
  let groups := mute_scope groups in
  monitor_id ← int_of monitor_id;
  end_ ← timestamp end_;
  Some (MuteCall.mk monitor_id end_ groups).

(** [unmute_monitor] up to the endpoint call. *)
Definition unmute_monitor (monitor_id : PyVal) (groups : list string)
  : option UnmuteCall.t :=
  let groups := Text.join "," groups in
  monitor_id ← int_of monitor_id;
  Some (UnmuteCall.mk monitor_id groups).

End Muting.

(** [get_monitor_events], given the events [list_events] answered: the
    comparison is between [str(event.monitor_id)] and [str(monitor_id)], and
    [to_dict] keeps the event's fields. *)
Definition get_monitor_events (events : list Event.t) (monitor_id : string)
  : list Event.t :=
  List.filter (λ event, bool_decide (pretty (Event.monitor_id event) = monitor_id))
              events.

Section AlertsConfiguration.

(** [json.dumps(monitor.to_dict(), default=str)] *)
Variable json_dumps : Monitor.t → string.

(** [if alert_id]: [None] and the empty string are false. *)
Definition alert_id_given (alert_id : option string) : bool :=
  match alert_id with
  | Some s => negb (bool_decide (s = ""))
  | None => false
  end.

(** [s[key]] for a [str]: a one-character string for an index in range,
    counted from the end when negative; IndexError out of range and
    TypeError for a key that is not an integer. *)
Definition str_getitem (s : string) (key : PyVal) : option string :=
  match key with
  | PyInt i =>
      let n := Z.of_nat (String.length s) in
      let i := if bool_decide (i < 0) then i + n else i in
      if bool_decide (0 ≤ i < n)
      then c ← String.get (Z.to_nat i) s; Some (String c EmptyString)
      else None
  | _ => None
  end.

(** [list(filter(lambda monitor: monitor["id"] == alert_id, monitors))] on
    the list of JSON strings. *)
Fixpoint filter_by_id (alert_id : string) (monitors : list string)
  : option (list string) :=
  match monitors with
  | [] => Some []
  | monitor :: rest =>
      id ← str_getitem monitor (PyStr "id");
      rest' ← filter_by_id alert_id rest;
      Some (if bool_decide (id = alert_id) then monitor :: rest' else rest')
  end.

(** [get_alerts_configuration], given what [list_monitors] answered
    ([None] when it raised, which is re-raised as GetAlertException);
    [None] is a raised exception. *)
Definition get_alerts_configuration (answer : option (list Monitor.t))
    (alert_id : option string) : option (list string) :=
  monitors ← answer;
  let monitors := json_dumps <$> monitors in
  if alert_id_given alert_id
  then filter_by_id (default "" alert_id) monitors
  else Some monitors.

End AlertsConfiguration.

(** *** Queries and scope validation *)

(** An exception that leaves a call: an [ApiException] of the vendor's
    client, or any other exception. *)
Inductive Raised : Type :=
  | RaisedApi (e : ApiException.t)
  | RaisedOther.

(** The instance fields [self.to] and [self._from]; [__init__] sets both to
    [None]. *)
Record Window (Datetime : Type) : Type := mkWindow {
  window_to : option Datetime;
  window_from : option Datetime
}.
Arguments mkWindow {Datetime} _ _.
Arguments window_to {Datetime} _.
Arguments window_from {Datetime} _.

(** The body of the [list_logs] request of [_query]. *)
Record LogsRequest (Datetime : Type) : Type := mkLogsRequest {
  logs_query : string;
  logs_from : Datetime;
  logs_to : Datetime
}.
Arguments mkLogsRequest {Datetime} _ _ _.

(** The arguments of the [query_metrics] request of [_query]. *)
Record MetricsRequest (Time : Type) : Type := mkMetricsRequest {
  metrics_query : string;
  metrics_from : Time;
  metrics_to : Time
}.
Arguments mkMetricsRequest {Time} _ _ _.

(** A [ProviderScope(...)] as the provider writes it; a keyword that is not
    passed is [None]. *)
Module ProviderScope.
Record t : Type := mk {
  name : string;
  description : string;
  mandatory : bool;
  mandatory_for_webhook : option bool;
  documentation_url : option string;
  alias : option string
}.
End ProviderScope.

(** [DatadogProvider.PROVIDER_SCOPES] *)
Definition PROVIDER_SCOPES : list ProviderScope.t :=
  [ ProviderScope.mk "events_read" "Read events data." true None None
      (Some "Events Data Read");
    ProviderScope.mk "monitors_read" "Read monitors" true (Some true)
      (Some "https://docs.datadoghq.com/account_management/rbac/permissions/#monitors")
      (Some "Monitors Read");
    ProviderScope.mk "monitors_write" "Write monitors" false (Some true)
      (Some "https://docs.datadoghq.com/account_management/rbac/permissions/#monitors")
      (Some "Monitors Write");
    ProviderScope.mk "create_webhooks" "Create webhooks integrations" false (Some true)
      None (Some "Integrations Manage");
    ProviderScope.mk "metrics_read" "View custom metrics." false None None None;
    ProviderScope.mk "logs_read" "Read log data." false None None
      (Some "Logs Read Data") ].

(** A [ProviderMethod(...)]. *)
Module ProviderMethod.
Record t : Type := mk {
  name : string;
  func_name : string;
  scopes : list string;
  description : string;
  type : string
}.
End ProviderMethod.

(** [DatadogProvider.PROVIDER_METHODS] *)
Definition PROVIDER_METHODS : list ProviderMethod.t :=
  [ ProviderMethod.mk "Mute a Monitor" "mute_monitor" ["monitors_write"]
      "Mute a monitor" "action";
    ProviderMethod.mk "Unmute a Monitor" "unmute_monitor" ["monitors_write"]
      "Unmute a monitor" "action";
    ProviderMethod.mk "Get Monitor Events" "get_monitor_events" ["events_read"]
      "Get all events related to this monitor" "view" ].

(** What [validate_scopes] records for a scope: [True], or [str(e.reason)]. *)
Inductive Verdict : Type :=
  | Granted
  | Denied (reason : string).

Section Queries.

Variable int_of_str : string → option Z.

(** What [time.time()] returns, and [datetime.datetime] values. *)
Variable Time : Type.
Variable Datetime : Type.

(** The readings of [time.time()] during one call of [_query], in the order
    in which they are taken. *)
Variable time_time : nat → Time.

(** [t - n] for a float [t] and an int [n]; OverflowError when [n] is too
    large for a float. *)
Variable time_minus : Time → Z → option Time.

(** [datetime.datetime.fromtimestamp(t)], [None] when it raises. *)
Variable fromtimestamp : Time → option Datetime.

(** [int(d.timestamp()) * 1000], [None] when it raises. *)
Variable timestamp_ms : Datetime → option Z.

(** What the vendor answers to [list_logs] and [query_metrics]. *)
Variable list_logs : LogsRequest Datetime → Raised + PyVal.
Variable query_metrics : MetricsRequest Time → Raised + PyVal.

(** [_query]: the instance fields as the call leaves them, and what it
    returns or raises.  With a [query_type] that is neither "logs" nor
    "metrics", [results] is unbound at the [return]. *)
Definition _query (self : Window Datetime) (query timeframe query_type : string)
  : Window Datetime * (Raised + PyVal) :=
  match convert_to_seconds int_of_str timeframe with
  | None => (self, inl RaisedOther)
  | Some timeframe_in_seconds =>
      match fromtimestamp (time_time 0) with
      | None => (self, inl RaisedOther)
      | Some to_ =>
          let self := mkWindow (Some to_) (window_from self) in
          match t ← time_minus (time_time 1) timeframe_in_seconds; fromtimestamp t with
          | None => (self, inl RaisedOther)
          | Some from_ =>
              let self := mkWindow (window_to self) (Some from_) in
              if bool_decide (query_type = "logs") then
                (self, list_logs (mkLogsRequest query from_ to_))
              else if bool_decide (query_type = "metrics") then
                match time_minus (time_time 2) (timeframe_in_seconds * 1000) with
                | None => (self, inl RaisedOther)
                | Some metrics_from_ =>
                    (self, query_metrics
                             (mkMetricsRequest query metrics_from_ (time_time 3)))
                end
              else (self, inl RaisedOther)
          end
      end
  end.

(** [expose]: the pair of ["to"] and ["from"]; AttributeError while a field
    is still [None]. *)
Definition expose (self : Window Datetime) : option (Z * Z) :=
  to_ ← window_to self;
  to_ms ← timestamp_ms to_;
  from_ ← window_from self;
  from_ms ← timestamp_ms from_;
  Some (to_ms, from_ms).

(** What the vendor answers to the probes of [validate_scopes]. *)
Variable probe_list_monitors : Raised + unit.
Variable probe_create_monitor : Raised + Z.
Variable probe_delete_monitor : Z → Raised + unit.
Variable probe_create_webhooks_integration : Raised + unit.
Variable probe_query_metrics : Raised + unit.
Variable probe_list_events : Raised + unit.

(** [str(e.reason)] *)
Variable reason : ApiException.t → string.

(** The inner [try] of the "create_webhooks" branch: an [ApiException] is
    raised again only with status 403, the status of a
    [ForbiddenException]. *)
Definition create_webhooks_probe : Raised + unit :=
  match probe_create_webhooks_integration with
  | inl (RaisedApi e) =>
      match ApiException.status e with
      | Forbidden => inl (RaisedApi e)
      | _ => inr tt
      end
  | other => other
  end.

(** The body of the [try] of [validate_scopes] for one scope name; a name
    without a branch does nothing. *)
Definition validate_scope (self : Window Datetime) (scope_name : string)
  : Window Datetime * (Raised + unit) :=
  if bool_decide (scope_name = "monitors_read") then (self, probe_list_monitors)
  else if bool_decide (scope_name = "monitors_write") then
    (self, match probe_create_monitor with
           | inr monitor_id => probe_delete_monitor monitor_id
           | inl e => inl e
           end)
  else if bool_decide (scope_name = "create_webhooks") then (self, create_webhooks_probe)
  else if bool_decide (scope_name = "metrics_read") then (self, probe_query_metrics)
  else if bool_decide (scope_name = "logs_read") then
    match _query self "*" "1h" "logs" with
    | (self, inr _) => (self, inr tt)
    | (self, inl e) => (self, inl e)
    end
  else if bool_decide (scope_name = "events_read") then (self, probe_list_events)
  else (self, inr tt).

(** The loop of [validate_scopes]: an [ApiException] of a probe becomes the
    scope's verdict and the loop goes on; any other exception leaves the
    call. *)
Fixpoint validate_scopes_loop (provider_scopes : list ProviderScope.t)
    (self : Window Datetime) (scopes : gmap string Verdict)
  : Window Datetime * (Raised + gmap string Verdict) :=
  match provider_scopes with
  | [] => (self, inr scopes)
  | scope :: rest =>
      match validate_scope self (ProviderScope.name scope) with
      | (self, inr _) =>
          validate_scopes_loop rest self (<[ProviderScope.name scope := Granted]> scopes)
      | (self, inl (RaisedApi e)) =>
          validate_scopes_loop rest self
            (<[ProviderScope.name scope := Denied (reason e)]> scopes)
      | (self, inl RaisedOther) => (self, inl RaisedOther)
      end
  end.

(** [validate_scopes] *)
Definition validate_scopes (self : Window Datetime)
  : Window Datetime * (Raised + gmap string Verdict) :=
  validate_scopes_loop PROVIDER_SCOPES self ∅.

End Queries.

(** ** Sample inputs *)

Module Sample.

(** A clock in UTC that is only asked about the epoch. *)
Definition isoformat (v : PyVal) : option string :=
  match v with
  | PyInt 0 => Some "1970-01-01T00:00:00"
  | _ => None
  end.

Definition ms_str (v : PyVal) : option string :=
  match v with
  | PyInt 0 => Some "1970-01-01 00:00:00"
  | PyStr "0" => Some "1970-01-01 00:00:00"
  | _ => None
  end.

Definition render (v : PyVal) : string :=
  match v with
  | PyNone => ""
  | PyStr s => s
  | PyInt z => pretty z
  | PyList l => String.concat "," l
  | PyDict d => String.concat "," (fst <$> d)
  end.

(** A combination rule: the rendered values, one per line. *)
Definition combine (vs : list PyVal) : string :=
  String.concat "/" (render <$> vs).

Definition cpu_monitor : Monitor.t :=
  Monitor.mk 7 "CPU" "cpu is high" (Some (Creator.mk "ops@example.com")) [].

Definition muted_monitor : Monitor.t :=
  Monitor.mk 8 "Disk" "disk is full" None [MatchingDowntime.mk ["host:a"] ["host:a"]].

Definition cpu_event : Event.t :=
  Event.mk 1 "[P1] [Alert] CPU high" "cpu" ["env:prod"; "monitor"] (PyInt 0) 7 ["host:a"].

Definition disk_event : Event.t :=
  Event.mk 2 "[P9] [Warn] Disk full" "disk" [] (PyInt 0) 8 ["host:a"].

(** A title with two parts only. *)
Definition short_event : Event.t :=
  Event.mk 3 "[P1] Recovered" "?" [] (PyInt 0) 7 [].

(** An event of a monitor that [list_monitors] did not return. *)
Definition orphan_event : Event.t :=
  Event.mk 4 "[P2] [Alert] Queue long" "queue" [] (PyInt 0) 99 ["*"].

Definition payload : gmap string PyVal :=
  <["tags" := PyStr "monitor,env:prod,team:sre"]>
  (<["last_updated" := PyStr "0"]>
  (<["title" := PyStr "[P1] [Alert] CPU high"]>
  (<["url" := PyStr "https://app.example.com/monitors/7"]>
  (<["monitor_id" := PyStr "7"]>
  (<["scopes" := PyStr "host:a"]> ∅))))).

(** The same payload with a numeric monitor id and a severity of its own. *)
Definition numeric_payload : gmap string PyVal :=
  <["monitor_id" := PyInt 7]> (<["severity" := PyStr "P2"]> payload).

(** A payload whose tags lack the "monitor" marker. *)
Definition no_marker_payload : gmap string PyVal :=
  <["tags" := PyStr "env:prod,team:sre"]> payload.

(** Credentials that may do everything, on an account with one monitor. *)
Definition full_access : Vendor.t :=
  Vendor.mk ∅ [cpu_monitor] true true true true (λ _, true).

(** Credentials that may create and update webhooks but not look them up. *)
Definition blind : Vendor.t :=
  Vendor.mk ∅ [] false true true true (λ _, true).

Definition keep_api_url : string := "https://keep.example.com/alerts/event/datadog".

End Sample.

Module SampleBatch.

Definition all_monitors : gmap Z Monitor.t :=
  all_monitors_of [Sample.cpu_monitor; Sample.muted_monitor].

(** A status token that already reads "Muted", on a monitor without
    downtimes. *)
Definition muted_token_event : Event.t :=
  Event.mk 5 "[P3] [Muted] Disk full" "disk" [] (PyInt 0) 7 ["host:a"].

End SampleBatch.

(** More sample inputs, for the rest of the provider. *)
Module MoreSamples.

(** An [int] that reads the few literals the samples use. *)
Definition int_of_str (s : string) : option Z :=
  if bool_decide (s = "1") then Some 1
  else if bool_decide (s = "7") then Some 7
  else if bool_decide (s = "30") then Some 30
  else None.

Definition int_of (v : PyVal) : option Z :=
  match v with
  | PyInt z => Some z
  | PyStr s => int_of_str s
  | _ => None
  end.

(** Datetimes and times as seconds since the epoch. *)
Definition fromisoformat (s : string) : option Z :=
  if bool_decide (s = "1970-01-02T00:00:00") then Some 86400 else None.

Definition timestamp (d : Z) : option Z := Some d.

Definition time_time (reading : nat) : Z := 1000 + Z.of_nat reading.

Definition time_minus (t n : Z) : option Z := Some (t - n).

Definition fromtimestamp (t : Z) : option Z := Some t.

Definition timestamp_ms (d : Z) : option Z := Some (d * 1000).

Definition list_logs (request : LogsRequest Z) : Raised + PyVal := inr (PyList []).

Definition query_metrics (request : MetricsRequest Z) : Raised + PyVal :=
  inr (PyList []).

(** Probe answers: the webhook of the probe exists already, and metrics may
    not be read. *)
Definition probe_create_webhooks_integration : Raised + unit :=
  inl (RaisedApi already_exists).

Definition probe_query_metrics : Raised + unit := inl (RaisedApi forbidden).

Definition reason (e : ApiException.t) : string :=
  match ApiException.status e with
  | Forbidden => "Forbidden"
  | NotFound => "Not Found"
  | OtherStatus => "Conflict"
  end.

Definition validate (self : Window Z) : Window Z * (Raised + gmap string Verdict) :=
  validate_scopes int_of_str Z Z time_time time_minus fromtimestamp
    list_logs query_metrics (inr tt) (inr 12345) (λ _, inr tt)
    probe_create_webhooks_integration probe_query_metrics (inr tt) reason self.

(** A payload whose scopes are the wildcard. *)
Definition wildcard_payload : gmap string PyVal :=
  <["scopes" := PyStr "*"]> Sample.payload.

Definition json_dumps (m : Monitor.t) : string := Monitor.name m.

End MoreSamples.

(** ** Properties of the polled path *)

Example split_title :
  Str.split " " (Some 2%nat) "[P1] [Alert] CPU high" = ["[P1]"; "[Alert]"; "CPU high"].
Proof. reflexivity. Qed.

Example split_tags :
  Str.split "," None "monitor,env:prod,,team:sre" = ["monitor"; "env:prod"; ""; "team:sre"].
Proof. reflexivity. Qed.

Example strip_ex : strip_brackets "[[P1]]" = "P1".
Proof. reflexivity. Qed.


Section PolledPath.

Variable fromtimestamp_isoformat : PyVal → option string.
Variable combine : list PyVal → string.

Abbreviation normalize := (normalize_event fromtimestamp_isoformat combine).
Abbreviation get_alerts := (_get_alerts fromtimestamp_isoformat combine).
Abbreviation raises := (raises fromtimestamp_isoformat combine).

Lemma get_alerts_loop_spec all_monitors events formatted_alerts log :
  get_alerts_loop fromtimestamp_isoformat combine all_monitors events formatted_alerts log
  = ((formatted_alerts ++ omap (normalize all_monitors) events)%list,
     (log ++ (log_skipped <$> List.filter (raises all_monitors) events))%list).
Proof.
  revert formatted_alerts log.
  induction events as [|event rest IH]; intros acc log; simpl.
  - by rewrite !app_nil_r.
  - unfold raises at 1. destruct (normalize all_monitors event) as [alert|]; simpl.
    + rewrite IH. by rewrite <- app_assoc.
    + rewrite IH. by rewrite <- app_assoc.
Qed.

Lemma omap_all_some {A B} (f : A → option B) (l : list A) :
  Forall (λ x, is_Some (f x)) l → length (omap f l) = length l.
Proof.
  induction 1 as [|x l [y Hy] _ IH]; simpl; [done|].
  rewrite Hy. simpl. by f_equal.
Qed.

Lemma filter_raises_none all_monitors (l : list Event.t) :
  Forall (λ e, is_Some (normalize all_monitors e)) l →
  List.filter (raises all_monitors) l = [].
Proof.
  induction 1 as [|x l [y Hy] _ IH]; simpl; [done|].
  unfold raises at 1. by rewrite Hy.
Qed.

Lemma length_omap_filter all_monitors (l : list Event.t) :
  (length (omap (normalize all_monitors) l)
   + length (List.filter (raises all_monitors) l) = length l)%nat.
Proof.
  induction l as [|x l IH]; simpl; [done|].
  unfold raises at 1. destruct (normalize all_monitors x); csimpl in *; lia.
Qed.

Lemma split_no_limit_left sep s : Str.split sep (Some 0%nat) s = [s].
Proof.
  induction s as [|c rest IH]; simpl; [done|]. by rewrite IH.
Qed.

(** A tag that holds a colon splits in two at the first one. *)
Lemma split_first_colon tag :
  Str.has_char ":" tag = true →
  ∃ k v, Str.split ":" (Some 1%nat) tag = [k; v].
Proof.
  induction tag as [|c rest IH]; simpl; [done|].
  case_bool_decide as Hc; simpl.
  - intros _. rewrite split_no_limit_left. eauto.
  - intros Hrest. destruct (IH Hrest) as (k & v & ->). eauto.
Qed.

(** The [tags] comprehension of the polled path never raises. *)
Lemma polled_tags_total event_tags : is_Some (polled_tags event_tags).
Proof.
  unfold polled_tags.
  assert (is_Some (mapM (λ tag, unpack2 (Str.split ":" (Some 1%nat) tag))
                        (List.filter (Str.has_char ":") event_tags))) as [pairs ->];
    [|by eexists].
  induction event_tags as [|tag rest IH]; simpl; [by eexists|].
  destruct (Str.has_char ":" tag) eqn:Htag; [|done].
  destruct (split_first_colon tag Htag) as (k & v & Hkv).
  destruct IH as [pairs Hpairs].
  exists ((k, v) :: pairs). simpl. rewrite Hkv. simpl. by rewrite Hpairs.
Qed.

(** What the [try] body needs to return, and what it then returns. *)
Lemma normalize_event_ok all_monitors event sev st title received m :
  Str.split " " (Some 2%nat) (Event.title event) = [sev; st; title] →
  fromtimestamp_isoformat (Event.date_happened event) = Some received →
  all_monitors !! Event.monitor_id event = Some m →
  ∃ a, normalize all_monitors event = Some a
       ∧ AlertDto.id a = PyInt (Event.id event)
       ∧ AlertDto.name a = title
       ∧ AlertDto.status a = (if is_muted m event then "Muted" else strip_brackets st)
       ∧ AlertDto.severity a = __get_parsed_severity (PyStr (strip_brackets sev))
       ∧ AlertDto.monitor_id a = PyInt (Event.monitor_id event)
       ∧ AlertDto.groups a = Event.monitor_groups event
       ∧ AlertDto.created_by a = (Creator.email <$> Monitor.creator m)
       ∧ AlertDto.fingerprint a
         = Some (combine [PyList (AlertDto.groups a); AlertDto.monitor_id a]).
Proof.
  intros Htitle Hrecv Hmon. unfold normalize_event.
  destruct (polled_tags_total (Event.tags event)) as [tags ->]. simpl.
  rewrite Htitle. simpl. rewrite Hrecv. simpl. rewrite Hmon. simpl.
  eexists. split; [reflexivity|]. simpl.
  repeat split; try done.
  by destruct (is_muted m event).
Qed.

(** Conversely, a returned alert comes from a three-part title, a
    timestamp that converts and a monitor that is known. *)
Lemma normalize_event_inv all_monitors event a :
  normalize all_monitors event = Some a →
  ∃ sev st title received m,
    Str.split " " (Some 2%nat) (Event.title event) = [sev; st; title]
    ∧ fromtimestamp_isoformat (Event.date_happened event) = Some received
    ∧ all_monitors !! Event.monitor_id event = Some m.
Proof.
  unfold normalize_event. intros H.
  destruct (polled_tags (Event.tags event)) as [tags|]; [simpl in H|done].
  destruct (Str.split " " (Some 2%nat) (Event.title event))
    as [|sev [|st [|title [|]]]] eqn:Htitle; try done. simpl in H.
  destruct (fromtimestamp_isoformat (Event.date_happened event))
    as [received|] eqn:Hrecv; [simpl in H|done].
  destruct (all_monitors !! Event.monitor_id event) as [m|] eqn:Hmon; [|done].
  by exists sev, st, title, received, m.
Qed.

(** An event whose monitor is not among the fetched ones raises. *)
Lemma normalize_event_unknown_monitor all_monitors event :
  all_monitors !! Event.monitor_id event = None →
  normalize all_monitors event = None.
Proof.
  intros Hmon. destruct (normalize all_monitors event) as [a|] eqn:Ha; [|done].
  apply normalize_event_inv in Ha as (? & ? & ? & ? & m & _ & _ & Hm). congruence.
Qed.

Lemma is_muted_iff m event :
  is_muted m event = true ↔
  ∃ d, d ∈ Monitor.matching_downtimes m
       ∧ (MatchingDowntime.groups d = Event.monitor_groups event
          ∨ MatchingDowntime.scope d = ["*"]).
Proof.
  unfold is_muted.
  assert (∀ d, downtime_matches event d = true ↔
               (MatchingDowntime.groups d = Event.monitor_groups event
                ∨ MatchingDowntime.scope d = ["*"])) as Hd.
  { intros d. unfold downtime_matches.
    rewrite orb_true_iff, !bool_decide_eq_true. done. }
  induction (Monitor.matching_downtimes m) as [|d ds IH]; simpl.
  - split; [done|]. intros (d & Hin & _). by apply elem_of_nil in Hin.
  - destruct (downtime_matches event d) eqn:Hmatch.
    + split; [|done]. intros _. exists d. split; [left|by apply Hd].
    + rewrite IH. split.
      * intros (d' & Hin & Hcond). exists d'. split; [by right|done].
      * intros (d' & Hin & Hcond). apply elem_of_cons in Hin as [->|Hin].
        -- apply Hd in Hcond. congruence.
        -- by exists d'.
Qed.

(** C2. An event whose normalization raises is logged with its id and its
    monitor id and skipped, and the events before and after it are normalized
    as if it were not there; when it is the only one that raises, a batch of
    100 events gives 99 alerts and one log record. *)
Theorem get_alerts_partial_failure monitors (before : list Event.t) bad after :
  let all_monitors := all_monitors_of monitors in
  let result := get_alerts monitors (before ++ bad :: after) in
  normalize all_monitors bad = None →
  result.1 = (omap (normalize all_monitors) before
              ++ omap (normalize all_monitors) after)%list
  ∧ result.2 = ((log_skipped <$> List.filter (raises all_monitors) before)
                ++ LogRecord.mk "Could not parse alert event"
                                (Event.id bad) (Event.monitor_id bad)
                   :: (log_skipped <$> List.filter (raises all_monitors) after))%list
  ∧ (Forall (λ e, is_Some (normalize all_monitors e)) (before ++ after) →
     length result.1 = (length before + length after)%nat
     ∧ result.2 = [log_skipped bad]
     ∧ (length (before ++ bad :: after) = 100%nat → length result.1 = 99%nat)).
Proof.
  intros all_monitors result Hbad.
  assert (result.1 = (omap (normalize all_monitors) before
                      ++ omap (normalize all_monitors) after)%list) as H1.
  { unfold result, _get_alerts. rewrite get_alerts_loop_spec. simpl.
    rewrite omap_app. simpl. fold all_monitors. by rewrite Hbad. }
  assert (result.2 = ((log_skipped <$> List.filter (raises all_monitors) before)
                ++ log_skipped bad
                   :: (log_skipped <$> List.filter (raises all_monitors) after))%list)
    as H2.
  { unfold result, _get_alerts. rewrite get_alerts_loop_spec. simpl.
    rewrite List.filter_app, fmap_app. simpl. fold all_monitors.
    unfold raises at 2. by rewrite Hbad. }
  split; [exact H1|]. split; [exact H2|].
  intros Hall. apply Forall_app in Hall as [Hb Ha].
  assert (length result.1 = (length before + length after)%nat) as Hlen.
  { rewrite H1, length_app, !omap_all_some; done. }
  split; [exact Hlen|]. split.
  - rewrite H2, !filter_raises_none; done.
  - rewrite length_app. simpl. lia.
Qed.

(** C3, amended. A returned alert's status is "Muted" when the owning
    monitor has a matching downtime whose groups equal the event's
    monitor_groups or whose scope is the wildcard list, and the
    bracket-stripped status token of the title otherwise; so it is "Muted"
    exactly when there is such a downtime or the token itself is "Muted". *)
Theorem get_alerts_muted_status all_monitors event a :
  normalize all_monitors event = Some a →
  ∃ m sev st title,
    all_monitors !! Event.monitor_id event = Some m
    ∧ Str.split " " (Some 2%nat) (Event.title event) = [sev; st; title]
    ∧ let muting :=
        ∃ d, d ∈ Monitor.matching_downtimes m
             ∧ (MatchingDowntime.groups d = Event.monitor_groups event
                ∨ MatchingDowntime.scope d = ["*"]) in
      (muting → AlertDto.status a = "Muted")
      ∧ (¬ muting → AlertDto.status a = strip_brackets st)
      ∧ (AlertDto.status a = "Muted" ↔ muting ∨ strip_brackets st = "Muted").
Proof.
  intros Ha.
  destruct (normalize_event_inv _ _ _ Ha) as (sev & st & title & received & m & Ht & Hr & Hm).
  destruct (normalize_event_ok _ _ _ _ _ _ _ Ht Hr Hm) as (a' & Ha' & _ & _ & Hst & _).
  assert (a' = a) as -> by congruence.
  exists m, sev, st, title. split; [done|]. split; [done|]. simpl.
  pose proof (is_muted_iff m event) as Hiff.
  destruct (is_muted m event).
  - assert (∃ d, d ∈ Monitor.matching_downtimes m
             ∧ (MatchingDowntime.groups d = Event.monitor_groups event
                ∨ MatchingDowntime.scope d = ["*"])) as Hex by by apply Hiff.
    split; [done|]. split; [done|]. split; [by left|done].
  - assert (¬ ∃ d, d ∈ Monitor.matching_downtimes m
             ∧ (MatchingDowntime.groups d = Event.monitor_groups event
                ∨ MatchingDowntime.scope d = ["*"])) as Hno.
    { intros Hex. apply Hiff in Hex. done. }
    split; [done|]. split; [done|]. rewrite Hst. split; [by right|].
    by intros [?|?].
Qed.

(** C7. An event titled "[P1] [Alert] CPU high", of a known monitor that is
    not muted, is normalized to severity "critical", status "Alert" and name
    "CPU high": the title splits into three parts, the brackets are stripped
    from the first two, and P1 is critical. *)
Theorem get_alerts_title_example all_monitors event m received :
  Event.title event = "[P1] [Alert] CPU high" →
  all_monitors !! Event.monitor_id event = Some m →
  is_muted m event = false →
  fromtimestamp_isoformat (Event.date_happened event) = Some received →
  Str.split " " (Some 2%nat) (Event.title event) = ["[P1]"; "[Alert]"; "CPU high"]
  ∧ strip_brackets "[P1]" = "P1"
  ∧ strip_brackets "[Alert]" = "Alert"
  ∧ ∃ a, normalize all_monitors event = Some a
         ∧ AlertDto.severity a = Some "critical"
         ∧ AlertDto.status a = "Alert"
         ∧ AlertDto.name a = "CPU high".
Proof.
  intros Htitle Hm Hmuted Hr.
  assert (Str.split " " (Some 2%nat) (Event.title event)
          = ["[P1]"; "[Alert]"; "CPU high"]) as Hsplit by by rewrite Htitle.
  split; [done|]. split; [done|]. split; [done|].
  destruct (normalize_event_ok _ _ _ _ _ _ _ Hsplit Hr Hm)
    as (a & Ha & _ & Hname & Hst & Hsev & _).
  exists a. rewrite Hmuted in Hst. by rewrite Hsev, Hst, Hname.
Qed.

(** Off the table, the severity is [None]. *)
Lemma parsed_severity_unknown (priority : PyVal) :
  priority ∉ [PyStr "P1"; PyStr "P2"; PyStr "P3"; PyStr "P4"] →
  __get_parsed_severity priority = None.
Proof.
  intros Hp. unfold __get_parsed_severity.
  repeat case_bool_decide; try done; subst; exfalso; apply Hp; set_solver.
Qed.

(** C8. A severity token other than P1, P2, P3 and P4 maps to no severity,
    and the event that carries it is still normalized, with severity [None]. *)
Theorem get_alerts_unknown_severity all_monitors event sev st title received m :
  PyStr (strip_brackets sev) ∉ [PyStr "P1"; PyStr "P2"; PyStr "P3"; PyStr "P4"] →
  Str.split " " (Some 2%nat) (Event.title event) = [sev; st; title] →
  fromtimestamp_isoformat (Event.date_happened event) = Some received →
  all_monitors !! Event.monitor_id event = Some m →
  __get_parsed_severity (PyStr (strip_brackets sev)) = None
  ∧ ∃ a, normalize all_monitors event = Some a ∧ AlertDto.severity a = None.
Proof.
  intros Hsev Ht Hr Hm.
  pose proof (parsed_severity_unknown _ Hsev) as Hnone.
  split; [done|].
  destruct (normalize_event_ok _ _ _ _ _ _ _ Ht Hr Hm) as (a & Ha & _ & _ & _ & Hs & _).
  exists a. by rewrite Hs.
Qed.

End PolledPath.

(** *** The polled path on the sample batch *)

Lemma get_alerts_partial_failure_witness :
  let result := _get_alerts Sample.isoformat Sample.combine
                  [Sample.cpu_monitor; Sample.muted_monitor]
                  ([Sample.cpu_event] ++ Sample.short_event :: [Sample.disk_event]) in
  length result.1 = 2%nat ∧ result.2 = [log_skipped Sample.short_event].
Proof.
  destruct (get_alerts_partial_failure Sample.isoformat Sample.combine
              [Sample.cpu_monitor; Sample.muted_monitor]
              [Sample.cpu_event] Sample.short_event [Sample.disk_event])
    as (_ & _ & H); [vm_compute; reflexivity|].
  destruct H as (H1 & H2 & _).
  { repeat constructor; vm_compute; eexists; reflexivity. }
  split; [exact H1 | exact H2].
Defined.

Lemma get_alerts_muted_status_witness :
  ∃ a, normalize_event Sample.isoformat Sample.combine
         SampleBatch.all_monitors Sample.disk_event = Some a
       ∧ AlertDto.status a = "Muted".
Proof.
  assert (∃ a, normalize_event Sample.isoformat Sample.combine
                 SampleBatch.all_monitors Sample.disk_event = Some a) as [a Ha]
    by (eexists; vm_compute; reflexivity).
  exists a. split; [exact Ha|].
  destruct (get_alerts_muted_status _ _ _ _ _ Ha) as (m & sev & st & title & Hm & _ & Hmuted & _).
  apply Hmuted. vm_compute in Hm. injection Hm as <-.
  exists (MatchingDowntime.mk ["host:a"] ["host:a"]).
  split; [left | left; reflexivity].
Defined.

(** C3 as stated fails: the status is "Muted" although the owning monitor has
    no matching downtime at all. *)
Lemma get_alerts_muted_status_counterexample :
  ∃ a m, normalize_event Sample.isoformat Sample.combine
           SampleBatch.all_monitors SampleBatch.muted_token_event = Some a
         ∧ SampleBatch.all_monitors !! Event.monitor_id SampleBatch.muted_token_event
           = Some m
         ∧ ¬ (AlertDto.status a = "Muted" ↔
              ∃ d, d ∈ Monitor.matching_downtimes m
                   ∧ (MatchingDowntime.groups d
                      = Event.monitor_groups SampleBatch.muted_token_event
                      ∨ MatchingDowntime.scope d = ["*"])).
Proof.
  eexists. exists Sample.cpu_monitor.
  split; [vm_compute; reflexivity|]. split; [vm_compute; reflexivity|].
  intros [Hmuted _]. destruct Hmuted as (d & Hin & _); [reflexivity|].
  simpl in Hin. by apply elem_of_nil in Hin.
Qed.

Lemma get_alerts_title_example_witness :
  ∃ a, normalize_event Sample.isoformat Sample.combine
         SampleBatch.all_monitors Sample.cpu_event = Some a
       ∧ AlertDto.severity a = Some "critical"
       ∧ AlertDto.status a = "Alert"
       ∧ AlertDto.name a = "CPU high".
Proof.
  destruct (get_alerts_title_example Sample.isoformat Sample.combine
              SampleBatch.all_monitors Sample.cpu_event Sample.cpu_monitor
              "1970-01-01T00:00:00")
    as (_ & _ & _ & H);
    [reflexivity | vm_compute; reflexivity | reflexivity | reflexivity | exact H].
Defined.

Lemma get_alerts_unknown_severity_witness :
  __get_parsed_severity (PyStr "P9") = None
  ∧ ∃ a, normalize_event Sample.isoformat Sample.combine
           SampleBatch.all_monitors Sample.disk_event = Some a
         ∧ AlertDto.severity a = None.
Proof.
  apply (get_alerts_unknown_severity Sample.isoformat Sample.combine
           SampleBatch.all_monitors Sample.disk_event
           "[P9]" "[Warn]" "Disk full" "1970-01-01T00:00:00" Sample.muted_monitor).
  - change (strip_brackets "[P9]") with "P9". intros Hin.
    repeat (apply elem_of_cons in Hin as [Hin|Hin]; [discriminate Hin|]).
    by apply elem_of_nil in Hin.
  - reflexivity.
  - reflexivity.
  - vm_compute. reflexivity.
Defined.

(** C6 at the failing input: the monitor of the event is not among the
    fetched ones, and the event is logged and skipped, not normalized with
    [created_by = None]. *)
Theorem get_alerts_orphan_event_skipped :
  all_monitors_of [Sample.cpu_monitor] !! Event.monitor_id Sample.orphan_event = None
  ∧ _get_alerts Sample.isoformat Sample.combine [Sample.cpu_monitor] [Sample.orphan_event]
    = ([], [LogRecord.mk "Could not parse alert event" 4 99]).
Proof. split; vm_compute; reflexivity. Qed.

(** ** Properties of the webhook path *)

Section WebhookPath.

Variable fromtimestamp_ms_str : PyVal → option string.
Variable combine : list PyVal → string.

Abbreviation format := (format_alert fromtimestamp_ms_str combine).

Lemma dict_get_delete_ne (d : gmap string PyVal) (popped key : string) dflt :
  key ≠ popped → dict_get (delete popped d) key dflt = dict_get d key dflt.
Proof. intros Hne. unfold dict_get. by rewrite lookup_delete_ne. Qed.

(** A returned alert comes from a payload every step accepted. *)
Lemma format_alert_inv event a :
  (format event).2 = Some a →
  ∃ tags_str tags_list tags event_time title_str sev st title groups,
    dict_get event "tags" (PyStr "") = PyStr tags_str
    ∧ list_remove "monitor" (Str.split "," None tags_str) = Some tags_list
    ∧ webhook_tags tags_list = Some tags
    ∧ fromtimestamp_ms_str (dict_get event "last_updated" PyNone) = Some event_time
    ∧ dict_get event "title" PyNone = PyStr title_str
    ∧ Str.split " " (Some 2%nat) title_str = [sev; st; title]
    ∧ webhook_groups (dict_get event "scopes" (PyStr "")) = Some groups
    ∧ AlertDto.name a = title
    ∧ AlertDto.status a = strip_brackets st
    ∧ AlertDto.severity a = __get_parsed_severity (dict_get event "severity" (PyStr sev))
    ∧ AlertDto.tags a = tags
    ∧ AlertDto.groups a = groups
    ∧ AlertDto.monitor_id a = dict_get event "monitor_id" PyNone
    ∧ AlertDto.url a = dict_get event "url" PyNone
    ∧ AlertDto.fingerprint a
      = Some (combine [PyList (AlertDto.groups a); AlertDto.monitor_id a]).
Proof.
  unfold format_alert, format_alert_parse. intros H.
  destruct (dict_get event "tags" (PyStr "")) as [|tags_str| | |] eqn:Htags;
    try done. simpl in H.
  destruct (list_remove "monitor" (Str.split "," None tags_str))
    as [tags_list|] eqn:Hremove; [simpl in H|done].
  destruct (webhook_tags tags_list) as [tags|] eqn:Hwt; [simpl in H|done].
  destruct (fromtimestamp_ms_str (dict_get event "last_updated" PyNone))
    as [event_time|] eqn:Htime; [simpl in H|done].
  destruct (dict_get event "title" PyNone) as [|title_str| | |] eqn:Htitle;
    try done. simpl in H.
  destruct (Str.split " " (Some 2%nat) title_str)
    as [|sev [|st [|title [|]]]] eqn:Hsplit; try done. simpl in H.
  unfold format_alert_build in H.
  rewrite !dict_get_delete_ne in H by done.
  destruct (webhook_groups (dict_get event "scopes" (PyStr "")))
    as [groups|] eqn:Hgroups; [simpl in H|done].
  injection H as <-.
  exists tags_str, tags_list, tags, event_time, title_str, sev, st, title, groups.
  simpl. repeat split; done.
Qed.


(** Without a "monitor" token, [tags_list.remove] raises. *)
Lemma list_remove_absent x l : x ∉ l → list_remove x l = None.
Proof.
  induction l as [|y rest IH]; simpl; [done|].
  intros Hnotin. apply not_elem_of_cons in Hnotin as [Hne Hrest].
  rewrite bool_decide_false by done. by rewrite IH.
Qed.




(** The severity lookup of the webhook path: the table entry of the
    payload's [severity] field when the payload has one, and of the first
    part of the three-way title split, as it stands, otherwise; the table is
    the one of the polled path: P1, P2, P3, P4 give critical, high, medium,
    low and anything else gives [None]. *)
Theorem format_alert_severity event a :
  (format event).2 = Some a →
  ∃ title_str sev st title,
    event !! "title" = Some (PyStr title_str)
    ∧ Str.split " " (Some 2%nat) title_str = [sev; st; title]
    ∧ AlertDto.severity a
      = __get_parsed_severity (match event !! "severity" with
                               | Some field => field
                               | None => PyStr sev
                               end)
    ∧ __get_parsed_severity (PyStr "P1") = Some "critical"
    ∧ __get_parsed_severity (PyStr "P2") = Some "high"
    ∧ __get_parsed_severity (PyStr "P3") = Some "medium"
    ∧ __get_parsed_severity (PyStr "P4") = Some "low"
    ∧ ∀ priority, priority ∉ [PyStr "P1"; PyStr "P2"; PyStr "P3"; PyStr "P4"] →
                  __get_parsed_severity priority = None.
Proof.
  intros Ha.
  destruct (format_alert_inv _ _ Ha)
    as (_ & _ & _ & _ & title_str & sev & st & title & _
        & _ & _ & _ & _ & Htitle & Hsplit & _ & _ & _ & Hsev & _).
  exists title_str, sev, st, title.
  split.
  { unfold dict_get in Htitle. by destruct (event !! "title") as [v|]; simplify_eq/=. }
  split; [done|]. split.
  { rewrite Hsev. unfold dict_get. by destruct (event !! "severity"). }
  repeat split; try done. apply parsed_severity_unknown.
Qed.

(** C10, amended. [format_alert] leaves every key but "url" as it was; "url"
    is gone once the tags, the timestamp and the title have been parsed,
    whether the call then returns an alert or raises; when one of those three
    raises, the payload is untouched and keeps its "url". *)
Theorem format_alert_pops_url event :
  let after := (format event).1 in
  (∀ key, key ≠ "url" → after !! key = event !! key)
  ∧ (is_Some (format_alert_parse fromtimestamp_ms_str event) → after !! "url" = None)
  ∧ (is_Some (format event).2 → after !! "url" = None)
  ∧ (format_alert_parse fromtimestamp_ms_str event = None →
     after = event ∧ (format event).2 = None).
Proof.
  unfold format_alert.
  destruct (format_alert_parse fromtimestamp_ms_str event)
    as [[[tags event_time] [[sev st] title]]|] eqn:Hparse; simpl.
  - split; [intros key Hne; by rewrite lookup_delete_ne|].
    split; [intros _; apply lookup_delete_eq|].
    split; [intros _; apply lookup_delete_eq|done].
  - split; [done|]. split; [by intros [? ?]|]. split; [by intros [? ?]|done].
Qed.

End WebhookPath.

(** *** The webhook path on the sample payloads *)



Lemma format_alert_severity_witness :
  ∃ a, (format_alert Sample.ms_str Sample.combine Sample.numeric_payload).2 = Some a
       ∧ AlertDto.severity a = Some "high".
Proof.
  assert (∃ a, (format_alert Sample.ms_str Sample.combine Sample.numeric_payload).2
               = Some a) as [a Ha] by (eexists; vm_compute; reflexivity).
  exists a. split; [exact Ha|].
  destruct (format_alert_severity _ _ _ _ Ha) as (title_str & sev & st & title & _ & _ & Hs & _).
  exact Hs.
Defined.

(** Without a [severity] field the title's first part is looked up as it
    stands, brackets included. *)
Example format_alert_title_severity :
  AlertDto.severity <$> (format_alert Sample.ms_str Sample.combine Sample.payload).2
  = Some (__get_parsed_severity (PyStr "[P1]"))
  ∧ __get_parsed_severity (PyStr "[P1]") = None.
Proof. split; vm_compute; reflexivity. Qed.

Lemma format_alert_pops_url_witness :
  let after := (format_alert Sample.ms_str Sample.combine Sample.payload).1 in
  after !! "url" = None ∧ after !! "title" = Sample.payload !! "title".
Proof.
  destruct (format_alert_pops_url Sample.ms_str Sample.combine Sample.payload)
    as (Hframe & Hparsed & _).
  split.
  - apply Hparsed. vm_compute. eexists. reflexivity.
  - apply Hframe. discriminate.
Defined.

(** C10 as stated fails: the call raises on the tags, before the pop, and the
    payload still holds its "url". *)
Lemma format_alert_pops_url_counterexample :
  (format_alert Sample.ms_str Sample.combine Sample.no_marker_payload).2 = None
  ∧ ¬ ((format_alert Sample.ms_str Sample.combine Sample.no_marker_payload).1 !! "url"
       = None).
Proof.
  split; [vm_compute; reflexivity|].
  intros H. vm_compute in H. discriminate H.
Qed.

(** ** The fingerprint *)

Section Fingerprint.

Variable fromtimestamp_isoformat : PyVal → option string.
Variable fromtimestamp_ms_str : PyVal → option string.
Variable combine : list PyVal → string.

Abbreviation from_polled := (from_polled fromtimestamp_isoformat combine).
Abbreviation from_webhook := (from_webhook fromtimestamp_ms_str combine).

Lemma produced_fingerprint a :
  from_polled a ∨ from_webhook a →
  AlertDto.fingerprint a
  = Some (combine [PyList (AlertDto.groups a); AlertDto.monitor_id a]).
Proof.
  intros [(monitors & events & Hin)|(event & Ha)].
  - unfold _get_alerts in Hin. rewrite get_alerts_loop_spec in Hin. simpl in Hin.
    apply list_elem_of_omap in Hin as (ev & _ & Ha).
    destruct (normalize_event_inv _ _ _ _ _ Ha)
      as (sev & st & title & received & m & Ht & Hr & Hm).
    destruct (normalize_event_ok _ combine _ _ _ _ _ _ _ Ht Hr Hm)
      as (a' & Ha' & _ & _ & _ & _ & _ & _ & _ & Hfp).
    by assert (a' = a) as -> by congruence.
  - by destruct (format_alert_inv _ _ _ _ Ha)
      as (? & ? & ? & ? & ? & ? & ? & ? & ? & _ & _ & _ & _ & _ & _ & _ & _ & _ & _ & _
          & _ & _ & _ & Hfp).
Qed.

(** C1. Two alerts, each from the polled or the webhook path, that agree on
    [groups] and [monitor_id] have the same fingerprint, whatever their
    other fields. *)
Theorem fingerprint_by_groups_and_monitor_id a b :
  from_polled a ∨ from_webhook a →
  from_polled b ∨ from_webhook b →
  AlertDto.groups a = AlertDto.groups b →
  AlertDto.monitor_id a = AlertDto.monitor_id b →
  AlertDto.fingerprint a = AlertDto.fingerprint b
  ∧ is_Some (AlertDto.fingerprint a).
Proof.
  intros Ha Hb Hgroups Hmonitor.
  rewrite (produced_fingerprint a Ha), (produced_fingerprint b Hb).
  rewrite Hgroups, Hmonitor. split; [done|by eexists].
Qed.

End Fingerprint.

Lemma fingerprint_by_groups_and_monitor_id_witness :
  ∃ a b,
    a ∈ (_get_alerts Sample.isoformat Sample.combine
           [Sample.cpu_monitor] [Sample.cpu_event]).1
    ∧ (format_alert Sample.ms_str Sample.combine Sample.numeric_payload).2 = Some b
    ∧ AlertDto.severity a ≠ AlertDto.severity b
    ∧ AlertDto.fingerprint a = AlertDto.fingerprint b.
Proof.
  assert (∃ a, _get_alerts Sample.isoformat Sample.combine
                 [Sample.cpu_monitor] [Sample.cpu_event] = ([a], []))
    as [a Ha] by (eexists; vm_compute; reflexivity).
  assert (∃ b, (format_alert Sample.ms_str Sample.combine Sample.numeric_payload).2
               = Some b) as [b Hb] by (eexists; vm_compute; reflexivity).
  exists a, b.
  assert (a ∈ (_get_alerts Sample.isoformat Sample.combine
                 [Sample.cpu_monitor] [Sample.cpu_event]).1) as Hin
    by (rewrite Ha; left).
  split; [exact Hin|]. split; [exact Hb|].
  vm_compute in Ha. injection Ha as <-. vm_compute in Hb. injection Hb as <-.
  split; [discriminate|].
  apply (fingerprint_by_groups_and_monitor_id
           Sample.isoformat Sample.ms_str Sample.combine).
  - left. exists [Sample.cpu_monitor], [Sample.cpu_event]. vm_compute. left.
  - right. exists Sample.numeric_payload. vm_compute. reflexivity.
  - reflexivity.
  - reflexivity.
Defined.

(** ** Properties of webhook provisioning *)

Section Provisioning.

Lemma same_policy_refl v : same_policy v v.
Proof. by repeat split. Qed.

Lemma same_policy_trans v1 v2 v3 :
  same_policy v1 v2 → same_policy v2 v3 → same_policy v1 v3.
Proof.
  intros (?&?&?&?&?) (?&?&?&?&?). repeat split; congruence.
Qed.

Lemma errors_already_exists :
  bool_decide ("Webhook already exists" ∈ ApiException.errors already_exists) = true.
Proof. apply bool_decide_eq_true. left. Qed.

Lemma errors_forbidden :
  bool_decide ("Webhook already exists" ∈ ApiException.errors forbidden) = false.
Proof.
  apply bool_decide_eq_false. intros H.
  apply elem_of_cons in H as [H|H]; [discriminate H|by apply elem_of_nil in H].
Qed.

Lemma errors_not_found :
  bool_decide ("Webhook already exists" ∈ ApiException.errors not_found) = false.
Proof.
  apply bool_decide_eq_false. intros H.
  apply elem_of_cons in H as [H|H]; [discriminate H|by apply elem_of_nil in H].
Qed.

Ltac run_registration :=
  unfold setup_webhook_registration, try_except, get_webhooks_integration,
    update_webhooks_integration, create_webhooks_integration, request,
    mbind, Api_bind, mret, Api_ret, raise, not_found_or_forbidden;
  simpl.

(** With the lookup allowed and the URL already the desired one, the only
    call is the lookup. *)
Lemma registration_unchanged webhook_name keep_api_url api_key v cs r :
  Vendor.can_get_webhook v = true →
  Vendor.webhooks v !! webhook_name = Some r →
  Registration.url r = keep_api_url →
  setup_webhook_registration webhook_name keep_api_url api_key (World.mk v cs)
  = (World.mk v (cs ++ [GetWebhook webhook_name]), inr tt).
Proof.
  intros Hget Hr Hurl. run_registration.
  rewrite Hget, Hr. simpl. rewrite Hurl, bool_decide_true by done. done.
Qed.

(** A call of the first half that returns leaves the webhook registered,
    with the desired URL when lookups and updates are allowed. *)
Lemma registration_returns webhook_name keep_api_url api_key v cs w' :
  setup_webhook_registration webhook_name keep_api_url api_key (World.mk v cs)
  = (w', inr tt) →
  same_policy v (World.vendor w')
  ∧ Vendor.monitors (World.vendor w') = Vendor.monitors v
  ∧ ∃ r, Vendor.webhooks (World.vendor w') !! webhook_name = Some r
         ∧ (Vendor.can_get_webhook v = true → Vendor.can_update_webhook v = true →
            Registration.url r = keep_api_url).
Proof.
  run_registration.
  destruct (Vendor.can_get_webhook v) eqn:Hget;
  destruct (Vendor.can_create_webhook v) eqn:Hcreate;
  destruct (Vendor.can_update_webhook v) eqn:Hupdate;
  destruct (Vendor.webhooks v !! webhook_name) as [r|] eqn:Hr; simpl;
  try case_bool_decide; simpl;
  repeat progress
    (rewrite ?Hget, ?Hcreate, ?Hupdate, ?Hr,
       ?errors_already_exists, ?errors_forbidden, ?errors_not_found; simpl);
  try done; intros [= <-]; simpl;
  (split; [by repeat split|]); (split; [done|]);
  eexists; (split; [first [apply lookup_insert_eq | eassumption]|]);
  simpl; try done; intros; congruence.
Qed.

(** Once the webhook is registered, the first half adds no registration and
    removes none, whatever the vendor allows and however the call ends. *)
Lemma registration_keeps_names webhook_name keep_api_url api_key v cs r :
  Vendor.webhooks v !! webhook_name = Some r →
  let result :=
    setup_webhook_registration webhook_name keep_api_url api_key (World.mk v cs) in
  dom (Vendor.webhooks (World.vendor result.1)) = dom (Vendor.webhooks v)
  ∧ same_policy v (World.vendor result.1)
  ∧ Vendor.monitors (World.vendor result.1) = Vendor.monitors v.
Proof.
  intros Hr. run_registration.
  destruct (Vendor.can_get_webhook v) eqn:Hget;
  destruct (Vendor.can_create_webhook v) eqn:Hcreate;
  destruct (Vendor.can_update_webhook v) eqn:Hupdate; simpl;
  rewrite ?Hr; simpl;
  try case_bool_decide; simpl;
  repeat progress
    (rewrite ?Hget, ?Hcreate, ?Hupdate, ?Hr,
       ?errors_already_exists, ?errors_forbidden, ?errors_not_found; simpl);
  (split; [first [done | by apply dom_insert_lookup_L]|]);
  (split; [by repeat split|done]).
Qed.

(** The second half only lists and updates monitors, and always returns. *)
Lemma monitors_phase webhook_name monitors w :
  ∃ v' cs',
    setup_webhook_monitors webhook_name monitors w
    = (World.mk v' (World.calls w ++ cs'), inr tt)
    ∧ Vendor.webhooks v' = Vendor.webhooks (World.vendor w)
    ∧ same_policy (World.vendor w) v'
    ∧ Forall (λ c, is_webhook_write c = false) cs'.
Proof.
  revert w. induction monitors as [|monitor rest IH]; intros [v cs]; simpl.
  - exists v, []. rewrite app_nil_r. repeat split; done.
  - unfold mbind, Api_bind, setup_webhook_monitor, try_except, update_monitor,
      request, mret, Api_ret. simpl.
    destruct (Str.contains _ _); simpl.
    + destruct (IH (World.mk v cs)) as (v' & cs' & -> & Hw & Hp & Hcs).
      exists v', cs'. done.
    + destruct (Vendor.can_update_monitor v (Monitor.id monitor)); simpl.
      * destruct (IH (World.mk
                        (Vendor.with_monitors
                           (set_message (Monitor.id monitor)
                              (Monitor.message monitor +:+ " @webhook-" +:+ webhook_name)
                            <$> Vendor.monitors v) v)
                        (cs ++ [UpdateMonitor (Monitor.id monitor)
                                  (Monitor.message monitor +:+ " @webhook-"
                                   +:+ webhook_name)])))
          as (v' & cs' & -> & Hw & Hp & Hcs).
        eexists v', (_ :: cs'). simpl. rewrite <- app_assoc. simpl.
        split; [reflexivity|]. split; [done|]. split; [done|].
        by constructor.
      * destruct (IH (World.mk v
                        (cs ++ [UpdateMonitor (Monitor.id monitor)
                                  (Monitor.message monitor +:+ " @webhook-"
                                   +:+ webhook_name)])))
          as (v' & cs' & -> & Hw & Hp & Hcs).
        eexists v', (_ :: cs'). simpl. rewrite <- app_assoc. simpl.
        split; [reflexivity|]. split; [done|]. split; [done|].
        by constructor.
Qed.

(** The second half of [setup_webhook] as a whole: it raises only when the
    monitors cannot be listed. *)
Lemma alerts_phase (setup_alerts : bool) webhook_name w :
  ∃ v' cs',
    (if setup_alerts
     then monitors ← list_monitors; setup_webhook_monitors webhook_name monitors
     else mret tt) w
    = (World.mk v' (World.calls w ++ cs'),
       if setup_alerts && negb (Vendor.can_list_monitors (World.vendor w))
       then inl forbidden else inr tt)
    ∧ Vendor.webhooks v' = Vendor.webhooks (World.vendor w)
    ∧ same_policy (World.vendor w) v'
    ∧ Forall (λ c, is_webhook_write c = false) cs'.
Proof.
  destruct w as [v cs]. destruct setup_alerts; simpl.
  - unfold mbind, Api_bind, list_monitors, request. simpl.
    destruct (Vendor.can_list_monitors v) eqn:Hlist; simpl.
    + destruct (monitors_phase webhook_name (Vendor.monitors v)
                  (World.mk v (cs ++ [ListMonitors])))
        as (v' & cs' & -> & Hw & Hp & Hcs).
      exists v', (ListMonitors :: cs'). simpl. rewrite <- app_assoc. simpl.
      split; [reflexivity|]. split; [exact Hw|]. split; [exact Hp|].
      by constructor.
    + exists v, [ListMonitors]. simpl.
      split; [reflexivity|]. split; [reflexivity|]. split; [apply same_policy_refl|].
      by repeat constructor.
  - exists v, []. unfold mret, Api_ret. rewrite app_nil_r.
    split; [reflexivity|]. split; [reflexivity|]. split; [apply same_policy_refl|].
    constructor.
Qed.

(** C9, amended. After a call of [setup_webhook] that returned, the webhook
    named by the prefix and the tenant id is registered, and a second call
    with the same arguments adds no registration; when the credentials may
    look webhooks up and update them, the second call returns, starts with
    the lookup, makes no update and no create of a webhook, and leaves the
    registrations as they were. *)
Theorem setup_webhook_idempotent tenant_id keep_api_url api_key setup_alerts v w1 :
  setup_webhook tenant_id keep_api_url api_key setup_alerts (World.mk v []) = (w1, inr tt) →
  let webhook_name := KEEP_DATADOG_WEBHOOK_INTEGRATION_NAME +:+ "-" +:+ tenant_id in
  let second :=
    setup_webhook tenant_id keep_api_url api_key setup_alerts
      (World.mk (World.vendor w1) []) in
  is_Some (Vendor.webhooks (World.vendor w1) !! webhook_name)
  ∧ dom (Vendor.webhooks (World.vendor second.1)) = dom (Vendor.webhooks (World.vendor w1))
  ∧ (Vendor.can_get_webhook v = true → Vendor.can_update_webhook v = true →
     second.2 = inr tt
     ∧ Vendor.webhooks (World.vendor second.1) = Vendor.webhooks (World.vendor w1)
     ∧ ∃ cs, World.calls second.1 = GetWebhook webhook_name :: cs
             ∧ Forall (λ c, is_webhook_write c = false) cs).
Proof.
  intros Hfirst webhook_name second.
  (* the first call *)
  unfold setup_webhook in Hfirst. fold webhook_name in Hfirst.
  unfold mbind at 1, Api_bind at 1 in Hfirst.
  destruct (setup_webhook_registration webhook_name keep_api_url api_key (World.mk v []))
    as [w' [e|[]]] eqn:Hreg; [done|].
  destruct (registration_returns _ _ _ _ _ _ Hreg) as (Hp & _ & r & Hr & Hurl).
  destruct (alerts_phase setup_alerts webhook_name w')
    as (v1 & cs1 & Hrun1 & Hw1 & Hp1 & _).
  rewrite Hrun1 in Hfirst. injection Hfirst as <- Hres1.
  assert (Vendor.webhooks v1 !! webhook_name = Some r) as Hr1 by by rewrite Hw1.
  assert (same_policy v v1) as Hp01 by by eapply same_policy_trans.
  (* the second call *)
  subst second. cbn [World.vendor].
  assert (setup_webhook tenant_id keep_api_url api_key setup_alerts (World.mk v1 [])
          = match setup_webhook_registration webhook_name keep_api_url api_key
                    (World.mk v1 []) with
            | (w2, inr _) =>
                (if setup_alerts
                 then monitors ← list_monitors;
                      setup_webhook_monitors webhook_name monitors
                 else mret tt) w2
            | (w2, inl e) => (w2, inl e)
            end) as ->.
  { unfold setup_webhook. fold webhook_name.
    unfold mbind at 1, Api_bind at 1.
    by destruct (setup_webhook_registration _ _ _ _) as [w2 [e|[]]]. }
  split; [by eexists|]. split.
  - pose proof (registration_keeps_names webhook_name keep_api_url api_key v1 [] r Hr1)
      as (Hdom & Hp2 & _).
    destruct (setup_webhook_registration webhook_name keep_api_url api_key (World.mk v1 []))
      as [w2 [e|[]]]; simpl in *; [done|].
    destruct (alerts_phase setup_alerts webhook_name w2)
      as (v2 & cs2 & -> & Hw2 & _). simpl. by rewrite Hw2.
  - intros Hget Hupdate.
    destruct Hp01 as (Hget1 & _ & _ & Hlist1 & _).
    rewrite (registration_unchanged webhook_name keep_api_url api_key v1 [] r
               ltac:(congruence) Hr1 (Hurl Hget Hupdate)).
    destruct (alerts_phase setup_alerts webhook_name
                (World.mk v1 ([] ++ [GetWebhook webhook_name])))
      as (v2 & cs2 & -> & Hw2 & _ & Hcs2). simpl in *.
    split; [|split; [done|by exists cs2]].
    destruct Hp as (_ & _ & _ & Hlist & _).
    rewrite Hlist1, <- Hlist. by destruct (_ && _).
Qed.

End Provisioning.

(** *** Provisioning on the sample accounts *)

Lemma setup_webhook_idempotent_witness :
  ∃ w1,
    setup_webhook "acme" Sample.keep_api_url "secret" true
      (World.mk Sample.full_access []) = (w1, inr tt)
    ∧ Forall (λ c, is_webhook_write c = false)
        (World.calls (setup_webhook "acme" Sample.keep_api_url "secret" true
                        (World.mk (World.vendor w1) [])).1).
Proof.
  assert (∃ w1, setup_webhook "acme" Sample.keep_api_url "secret" true
                  (World.mk Sample.full_access []) = (w1, inr tt)) as [w1 H1]
    by (eexists; vm_compute; reflexivity).
  exists w1. split; [exact H1|].
  destruct (setup_webhook_idempotent _ _ _ _ _ _ H1) as (_ & _ & H).
  destruct H as (_ & _ & cs & -> & Hcs); [reflexivity | reflexivity |].
  constructor; [reflexivity | exact Hcs].
Defined.

(** C9 as stated fails: the first call returns after creating the webhook,
    and the second one, refused the lookup, tries to create it again, is told
    that it exists and updates it. *)
Lemma setup_webhook_idempotent_counterexample :
  ∃ w1,
    setup_webhook "acme" Sample.keep_api_url "secret" false
      (World.mk Sample.blind []) = (w1, inr tt)
    ∧ World.calls (setup_webhook "acme" Sample.keep_api_url "secret" false
                     (World.mk (World.vendor w1) [])).1
      = [ GetWebhook "keep-datadog-webhook-integration-acme";
          CreateWebhook "keep-datadog-webhook-integration-acme" Sample.keep_api_url;
          UpdateWebhook "keep-datadog-webhook-integration-acme" Sample.keep_api_url ].
Proof.
  eexists. split; vm_compute; reflexivity.
Qed.

(** ** Further properties: strings *)

Lemma split_not_nil sep maxsplit s : Str.split sep maxsplit s ≠ [].
Proof.
  revert maxsplit. induction s as [|c rest IH]; intros maxsplit; simpl; [done|].
  destruct (Str.may_split maxsplit && bool_decide (c = sep)); [done|].
  by destruct (Str.split sep maxsplit rest).
Qed.

Lemma concat_cons sep x (xs : list string) :
  xs ≠ [] → String.concat sep (x :: xs) = x +:+ sep +:+ String.concat sep xs.
Proof. by destruct xs. Qed.

Lemma concat_head_cons sep c w (ws : list string) :
  String.concat sep (String c w :: ws) = String c (String.concat sep (w :: ws)).
Proof. by destruct ws. Qed.

Lemma join_split_inverse sep maxsplit s :
  Text.join (String sep EmptyString) (Str.split sep maxsplit s) = s.
Proof.
  unfold Text.join. revert maxsplit.
  induction s as [|c rest IH]; intros maxsplit; simpl; [done|].
  destruct (Str.may_split maxsplit && bool_decide (c = sep)) eqn:Hsplit.
  - apply andb_true_iff in Hsplit as [_ Hc]. apply bool_decide_eq_true in Hc as ->.
    rewrite concat_cons by apply split_not_nil. simpl. by rewrite IH.
  - specialize (IH maxsplit).
    destruct (Str.split sep maxsplit rest) as [|w ws] eqn:Hrest.
    + by apply split_not_nil in Hrest.
    + rewrite concat_head_cons. by rewrite IH.
Qed.

Lemma split_length sep maxsplit s :
  length (Str.split sep maxsplit s)
  = match maxsplit with
    | None => S (Text.count sep s)
    | Some n => S (Nat.min n (Text.count sep s))
    end.
Proof.
  revert maxsplit. induction s as [|c rest IH]; intros maxsplit; simpl.
  - destruct maxsplit as [n|]; simpl; [|done]. by rewrite Nat.min_0_r.
  - case_bool_decide as Hc; simpl.
    + destruct maxsplit as [[|n]|]; simpl.
      * specialize (IH (Some O)). simpl in IH.
        destruct (Str.split sep (Some O) rest); simpl in *; lia.
      * rewrite IH. simpl. done.
      * rewrite IH. simpl. done.
    + rewrite andb_false_r. specialize (IH maxsplit).
      destruct (Str.split sep maxsplit rest) as [|w ws]; simpl in *; [|done].
      destruct maxsplit; simpl in *; lia.
Qed.

(** X1. Joining the pieces of a split with the separator gives the string
    back, whatever the limit on the number of splits. *)
Theorem split_join_roundtrip sep maxsplit s :
  Text.join (String sep EmptyString) (Str.split sep maxsplit s) = s.
Proof. apply join_split_inverse. Qed.

(** X2. A split gives one piece more than there are separators, and at most
    one more than the limit; so a title unpacks into severity, status and
    text exactly when it holds at least two spaces. *)
Theorem split_pieces sep maxsplit s :
  length (Str.split sep maxsplit s)
  = match maxsplit with
    | None => S (Text.count sep s)
    | Some n => S (Nat.min n (Text.count sep s))
    end
  ∧ (is_Some (unpack3 (Str.split sep (Some 2%nat) s)) ↔ (2 ≤ Text.count sep s)%nat).
Proof.
  split; [apply split_length|].
  pose proof (split_length sep (Some 2%nat) s) as Hlen.
  destruct (Str.split sep (Some 2%nat) s) as [|a [|b [|c [|d l]]]];
    cbn [length] in Hlen; unfold unpack3.
  - split; [by intros [? ?]|lia].
  - split; [by intros [? ?]|lia].
  - split; [by intros [? ?]|lia].
  - split; [lia|]. intros _. by exists (a, b, c).
  - split; [by intros [? ?]|lia].
Qed.

(** ** Further properties: the polled path *)

Section PolledPathMore.

Variable fromtimestamp_isoformat : PyVal → option string.
Variable combine : list PyVal → string.

Abbreviation normalize := (normalize_event fromtimestamp_isoformat combine).
Abbreviation get_alerts := (_get_alerts fromtimestamp_isoformat combine).
Abbreviation raises := (raises fromtimestamp_isoformat combine).

(** X3. An event is normalized exactly when its title holds at least two
    spaces, its timestamp converts and its monitor is among the fetched
    ones; every other event raises and is skipped. *)
Theorem normalize_event_returns_iff all_monitors event :
  is_Some (normalize all_monitors event)
  ↔ (2 ≤ Text.count " " (Event.title event))%nat
    ∧ is_Some (fromtimestamp_isoformat (Event.date_happened event))
    ∧ is_Some (all_monitors !! Event.monitor_id event).
Proof.
  split.
  - intros [a Ha].
    apply normalize_event_inv in Ha as (sev & st & title & received & m & Ht & Hr & Hm).
    split; [|split; by eexists].
    pose proof (split_length " " (Some 2%nat) (Event.title event)) as Hlen.
    rewrite Ht in Hlen. cbn [length] in Hlen. lia.
  - intros (Hspaces & [received Hr] & [m Hm]).
    pose proof (split_length " " (Some 2%nat) (Event.title event)) as Hlen.
    destruct (Str.split " " (Some 2%nat) (Event.title event))
      as [|sev [|st [|title [|]]]] eqn:Ht; cbn [length] in Hlen; try lia.
    destruct (normalize_event_ok _ combine _ _ _ _ _ _ _ Ht Hr Hm) as (a & Ha & _).
    by exists a.
Qed.

Lemma normalize_event_ids all_monitors event a :
  normalize all_monitors event = Some a →
  AlertDto.id a = PyInt (Event.id event)
  ∧ AlertDto.monitor_id a = PyInt (Event.monitor_id event)
  ∧ AlertDto.groups a = Event.monitor_groups event.
Proof.
  intros Ha.
  destruct (normalize_event_inv _ _ _ _ _ Ha)
    as (sev & st & title & received & m & Ht & Hr & Hm).
  destruct (normalize_event_ok _ combine _ _ _ _ _ _ _ Ht Hr Hm)
    as (a' & Ha' & Hid & _ & _ & _ & Hmid & Hg & _).
  by assert (a' = a) as -> by congruence.
Qed.

Lemma omap_ids all_monitors (events : list Event.t) :
  AlertDto.id <$> omap (normalize all_monitors) events
  = (λ e, PyInt (Event.id e))
    <$> List.filter (λ e, negb (raises all_monitors e)) events.
Proof.
  induction events as [|event rest IH]; [done|]. csimpl.
  unfold raises at 1.
  destruct (normalize all_monitors event) as [a|] eqn:Ha; csimpl.
  - destruct (normalize_event_ids _ _ _ Ha) as (-> & _). by rewrite IH.
  - exact IH.
Qed.

(** X4. Every event of a batch ends up either as one alert or as one log
    record: the alerts carry the ids of the events that did not raise, in
    the order of the batch, and the log records those of the events that
    did. *)
Theorem get_alerts_accounting monitors (events : list Event.t) :
  let all_monitors := all_monitors_of monitors in
  let result := get_alerts monitors events in
  (length result.1 + length result.2 = length events)%nat
  ∧ AlertDto.id <$> result.1
    = (λ e, PyInt (Event.id e)) <$> List.filter (λ e, negb (raises all_monitors e)) events
  ∧ LogRecord.event_id <$> result.2
    = Event.id <$> List.filter (raises all_monitors) events.
Proof.
  intros all_monitors result. unfold result, _get_alerts.
  rewrite get_alerts_loop_spec. cbn [fst snd app].
  split; [rewrite length_fmap; apply length_omap_filter|]. split; [apply omap_ids|].
  rewrite <- list_fmap_compose. done.
Qed.

Lemma all_monitors_of_snoc monitors m :
  all_monitors_of (monitors ++ [m]) = <[Monitor.id m := m]> (all_monitors_of monitors).
Proof. unfold all_monitors_of. by rewrite foldl_app. Qed.

(** X5. The monitor that an id resolves to is the last one of the fetched
    list with that id, and an id resolves to nothing exactly when no fetched
    monitor has it. *)
Theorem all_monitors_of_lookup monitors (i : Z) :
  match all_monitors_of monitors !! i with
  | Some m =>
      Monitor.id m = i
      ∧ ∃ before after, monitors = (before ++ m :: after)%list
                        ∧ ∀ m', m' ∈ after → Monitor.id m' ≠ i
  | None => ∀ m, m ∈ monitors → Monitor.id m ≠ i
  end.
Proof.
  induction monitors as [|m monitors IH] using rev_ind.
  - unfold all_monitors_of. simpl. rewrite lookup_empty.
    intros m Hm. by apply elem_of_nil in Hm.
  - rewrite all_monitors_of_snoc.
    destruct (decide (Monitor.id m = i)) as [Heq|Hne].
    + rewrite <- Heq, lookup_insert_eq. split; [done|].
      exists monitors, []. split; [done|]. intros m' Hm'. by apply elem_of_nil in Hm'.
    + rewrite lookup_insert_ne by done.
      destruct (all_monitors_of monitors !! i) as [m0|].
      * destruct IH as (Hid & before & after & -> & Hafter). split; [done|].
        exists before, (after ++ [m])%list. split; [by rewrite <- app_assoc|].
        intros m' Hm'. apply elem_of_app in Hm' as [Hm'|Hm'].
        -- by apply Hafter.
        -- apply list_elem_of_singleton in Hm' as ->. done.
      * intros m' Hm'. apply elem_of_app in Hm' as [Hm'|Hm'].
        -- by apply IH.
        -- apply list_elem_of_singleton in Hm' as ->. done.
Qed.

End PolledPathMore.

(** ** Further properties: tags *)

Lemma dict_of_pairs_snoc {V} (pairs : list (string * V)) k v :
  dict_of_pairs (pairs ++ [(k, v)]) = <[k := v]> (dict_of_pairs pairs).
Proof. unfold dict_of_pairs. by rewrite foldl_app. Qed.

Lemma dict_of_pairs_lookup_Some {V} (pairs : list (string * V)) k v :
  dict_of_pairs pairs !! k = Some v → (k, v) ∈ pairs.
Proof.
  induction pairs as [|[k' v'] pairs IH] using rev_ind.
  - unfold dict_of_pairs. simpl. by rewrite lookup_empty.
  - rewrite dict_of_pairs_snoc. destruct (decide (k' = k)) as [->|Hne].
    + rewrite lookup_insert_eq. intros [= ->]. apply elem_of_app. right. left.
    + rewrite lookup_insert_ne by done. intros H. apply elem_of_app. left. by apply IH.
Qed.

Lemma dict_of_pairs_lookup_is_Some {V} (pairs : list (string * V)) k v :
  (k, v) ∈ pairs → is_Some (dict_of_pairs pairs !! k).
Proof.
  induction pairs as [|[k' v'] pairs IH] using rev_ind.
  - intros H. by apply elem_of_nil in H.
  - rewrite dict_of_pairs_snoc. intros H. destruct (decide (k' = k)) as [->|Hne].
    + rewrite lookup_insert_eq. by eexists.
    + rewrite lookup_insert_ne by done. apply elem_of_app in H as [H|H]; [by apply IH|].
      apply list_elem_of_singleton in H. congruence.
Qed.

(** A tag with a colon splits at the first one: the key holds no colon and
    the value is all that follows. *)
Lemma split_first_colon_parts tag :
  Str.has_char ":" tag = true →
  ∃ k v, Str.split ":" (Some 1%nat) tag = [k; v]
         ∧ tag = k +:+ ":" +:+ v
         ∧ Str.has_char ":" k = false.
Proof.
  induction tag as [|c rest IH]; simpl; [done|].
  case_bool_decide as Hc; simpl.
  - intros _. rewrite split_no_limit_left. exists EmptyString, rest.
    subst c. done.
  - intros Hrest. destruct (IH Hrest) as (k & v & -> & -> & Hk).
    exists (String c k), v. simpl. rewrite bool_decide_false by done. done.
Qed.

(** X6. The tags comprehension of the polled path never raises: every key
    of the mapping is the part of some tag before its first colon and holds no
    colon itself, the value is everything after that colon, and every tag
    with a colon contributes its key; tags without a colon are dropped. *)
Theorem polled_tags_lookup (event_tags : list string) :
  ∃ d, polled_tags event_tags = Some d
       ∧ (∀ k v, d !! k = Some v →
                 Str.has_char ":" k = false ∧ (k +:+ ":" +:+ v) ∈ event_tags)
       ∧ (∀ tag, tag ∈ event_tags → Str.has_char ":" tag = true →
                 ∃ k v, tag = k +:+ ":" +:+ v
                        ∧ Str.has_char ":" k = false
                        ∧ is_Some (d !! k)).
Proof.
  unfold polled_tags.
  assert (∃ pairs,
    mapM (λ tag, unpack2 (Str.split ":" (Some 1%nat) tag))
         (List.filter (Str.has_char ":") event_tags) = Some pairs
    ∧ (∀ k v, (k, v) ∈ pairs →
              Str.has_char ":" k = false ∧ (k +:+ ":" +:+ v) ∈ event_tags)
    ∧ (∀ tag, tag ∈ event_tags → Str.has_char ":" tag = true →
              ∃ k v, tag = k +:+ ":" +:+ v ∧ Str.has_char ":" k = false
                     ∧ (k, v) ∈ pairs)) as (pairs & -> & Hkeys & Htags).
  { induction event_tags as [|tag rest (pairs & Hpairs & Hkeys & Htags)]; simpl.
    - exists []. split; [done|]. split.
      + intros ? ? H. by apply elem_of_nil in H.
      + intros ? H _. by apply elem_of_nil in H.
    - destruct (Str.has_char ":" tag) eqn:Htag.
      + destruct (split_first_colon_parts tag Htag) as (k & v & Hsplit & Heq & Hk).
        exists ((k, v) :: pairs). simpl. rewrite Hsplit. simpl. rewrite Hpairs. simpl.
        split; [done|]. split.
        * intros k' v' Hin. apply elem_of_cons in Hin as [[= -> ->]|Hin].
          -- split; [done|]. rewrite <- Heq. left.
          -- destruct (Hkeys _ _ Hin). split; [done|by right].
        * intros tag' Hin Hcolon. apply elem_of_cons in Hin as [->|Hin].
          -- exists k, v. repeat split; [done..|left].
          -- destruct (Htags _ Hin Hcolon) as (k' & v' & ? & ? & ?).
             exists k', v'. repeat split; [done..|by right].
      + exists pairs. split; [done|]. split.
        * intros k' v' Hin. destruct (Hkeys _ _ Hin). split; [done|by right].
        * intros tag' Hin Hcolon. apply elem_of_cons in Hin as [->|Hin]; [congruence|].
          by apply Htags. }
  exists (dict_of_pairs pairs). split; [done|]. split.
  - intros k v Hd. apply Hkeys. by apply dict_of_pairs_lookup_Some.
  - intros tag Hin Hcolon. destruct (Htags _ Hin Hcolon) as (k & v & ? & ? & Hp).
    exists k, v. repeat split; [done..|]. by eapply dict_of_pairs_lookup_is_Some.
Qed.



(** ** Further properties: the webhook path *)

Section WebhookPathMore.

Variable fromtimestamp_ms_str : PyVal → option string.
Variable combine : list PyVal → string.

Abbreviation format := (format_alert fromtimestamp_ms_str combine).

Lemma list_remove_Some_elem x l l' : list_remove x l = Some l' → x ∈ l.
Proof.
  revert l'. induction l as [|y rest IH]; intros l'; simpl; [done|].
  case_bool_decide as Hy; [intros _; subst; left|].
  destruct (list_remove x rest) as [rest'|] eqn:Hrest; [|done].
  intros _. right. by eapply IH.
Qed.



(** X8. The groups of a webhook alert are never empty: they are the single
    wildcard when [scopes] is absent, empty or otherwise false, and else the
    comma-separated pieces of [scopes], which joined again give it back. *)
Theorem format_alert_groups event a :
  (format event).2 = Some a →
  AlertDto.groups a ≠ []
  ∧ (py_truthy (dict_get event "scopes" (PyStr "")) = false →
     AlertDto.groups a = ["*"])
  ∧ (∀ s, event !! "scopes" = Some (PyStr s) → s ≠ "" →
          AlertDto.groups a = Str.split "," None s
          ∧ Text.join "," (AlertDto.groups a) = s).
Proof.
  intros Ha.
  destruct (format_alert_inv _ _ _ _ Ha)
    as (? & ? & ? & ? & ? & ? & ? & ? & groups & _ & _ & _ & _ & _ & _ & Hgroups
        & _ & _ & _ & _ & -> & _).
  unfold webhook_groups in Hgroups. split; [|split].
  - destruct (py_truthy _); simpl in Hgroups; [|by injection Hgroups as <-].
    destruct (as_str _) as [s|]; [|done]. injection Hgroups as <-.
    apply split_not_nil.
  - intros Hfalse. rewrite Hfalse in Hgroups. by injection Hgroups as <-.
  - intros s Hs Hne. unfold dict_get in Hgroups. rewrite Hs in Hgroups.
    simpl in Hgroups. rewrite bool_decide_false in Hgroups by done.
    simpl in Hgroups. injection Hgroups as <-.
    split; [done|]. apply (join_split_inverse "," None s).
Qed.

Lemma format_alert_parse_delete event popped :
  popped ≠ "tags" → popped ≠ "last_updated" → popped ≠ "title" →
  format_alert_parse fromtimestamp_ms_str (delete popped event)
  = format_alert_parse fromtimestamp_ms_str event.
Proof.
  intros ? ? ?. unfold format_alert_parse.
  by rewrite !dict_get_delete_ne by done.
Qed.

(** X9. Normalizing the payload that a first call has already popped gives
    the same alert again, fingerprint included, except that its url is
    [None]; the payload is not changed any further. *)
Theorem format_alert_twice event a :
  (format event).2 = Some a →
  let popped := (format event).1 in
  ∃ a', format popped = (popped, Some a')
        ∧ AlertDto.url a' = PyNone
        ∧ a = AlertDto.mk (AlertDto.id a') (AlertDto.name a') (AlertDto.status a')
                (AlertDto.lastReceived a') (AlertDto.severity a') (AlertDto.message a')
                (AlertDto.monitor_id a') (AlertDto.groups a') (AlertDto.source a')
                (AlertDto.tags a') (AlertDto.created_by a')
                (dict_get event "url" PyNone) (AlertDto.fingerprint a').
Proof.
  unfold format_alert.
  destruct (format_alert_parse fromtimestamp_ms_str event)
    as [[[tags event_time] [[sev st] title]]|] eqn:Hparse; [|done].
  cbn [fst snd]. intros Ha.
  rewrite format_alert_parse_delete, Hparse by done.
  rewrite delete_delete_eq.
  unfold format_alert_build in *.
  destruct (webhook_groups (dict_get (delete "url" event) "scopes" (PyStr "")))
    as [groups|]; [|done].
  simpl in *. injection Ha as <-.
  eexists. split; [reflexivity|]. simpl.
  split; [unfold dict_get; by rewrite lookup_delete_eq|done].
Qed.

(** What every webhook alert carries. *)
Lemma format_alert_constants event a :
  (format event).2 = Some a →
  AlertDto.source a = ["datadog"] ∧ AlertDto.created_by a = None
  ∧ ∃ priority, AlertDto.severity a = __get_parsed_severity priority.
Proof.
  unfold format_alert.
  destruct (format_alert_parse fromtimestamp_ms_str event)
    as [[[tags event_time] [[sev st] title]]|]; [|done].
  cbn [snd]. unfold format_alert_build.
  destruct (webhook_groups _) as [groups|]; [|done].
  simpl. intros [= <-]. simpl. split; [done|]. split; [done|]. by eexists.
Qed.

End WebhookPathMore.

(** ** Further properties: alerts of either path *)

Lemma parsed_severity_range priority :
  __get_parsed_severity priority
  ∈ [None; Some "critical"; Some "high"; Some "medium"; Some "low"].
Proof.
  unfold __get_parsed_severity. repeat case_bool_decide; set_solver.
Qed.

Section AlertsMore.

Variable fromtimestamp_isoformat : PyVal → option string.
Variable fromtimestamp_ms_str : PyVal → option string.
Variable combine : list PyVal → string.

Abbreviation from_polled := (from_polled fromtimestamp_isoformat combine).
Abbreviation from_webhook := (from_webhook fromtimestamp_ms_str combine).

(** What every polled alert carries. *)
Lemma normalize_event_constants all_monitors event a :
  normalize_event fromtimestamp_isoformat combine all_monitors event = Some a →
  AlertDto.source a = ["datadog"] ∧ AlertDto.url a = PyNone
  ∧ ∃ priority, AlertDto.severity a = __get_parsed_severity priority.
Proof.
  unfold normalize_event. intros H.
  destruct (polled_tags (Event.tags event)) as [tags|]; [simpl in H|done].
  destruct (Str.split " " (Some 2%nat) (Event.title event))
    as [|sev [|st [|title [|]]]]; try done. simpl in H.
  destruct (fromtimestamp_isoformat (Event.date_happened event))
    as [received|]; [simpl in H|done].
  destruct (all_monitors !! Event.monitor_id event) as [m|]; [|done].
  simpl in H. injection H as <-. simpl. split; [done|]. split; [done|]. by eexists.
Qed.

(** X10. Every alert of either path names "datadog" as its only source and
    has a severity that is critical, high, medium, low or [None]; a polled
    alert has no url and a webhook alert no creator. *)
Theorem alert_invariants a :
  from_polled a ∨ from_webhook a →
  AlertDto.source a = ["datadog"]
  ∧ AlertDto.severity a
    ∈ [None; Some "critical"; Some "high"; Some "medium"; Some "low"]
  ∧ (from_polled a → AlertDto.url a = PyNone)
  ∧ (from_webhook a → AlertDto.created_by a = None).
Proof.
  assert (∀ a, from_polled a →
            AlertDto.source a = ["datadog"] ∧ AlertDto.url a = PyNone
            ∧ ∃ priority, AlertDto.severity a = __get_parsed_severity priority)
    as Hpolled.
  { intros a0 (monitors & events & Hin).
    unfold _get_alerts in Hin. rewrite get_alerts_loop_spec in Hin. simpl in Hin.
    apply list_elem_of_omap in Hin as (ev & _ & Ha).
    by eapply normalize_event_constants. }
  assert (∀ a, from_webhook a →
            AlertDto.source a = ["datadog"] ∧ AlertDto.created_by a = None
            ∧ ∃ priority, AlertDto.severity a = __get_parsed_severity priority)
    as Hwebhook.
  { intros a0 (event & Ha). by eapply format_alert_constants. }
  intros [Ha|Ha].
  - destruct (Hpolled a Ha) as (Hsource & Hurl & priority & ->).
    split; [done|]. split; [apply parsed_severity_range|]. split; [done|].
    intros Hw. by destruct (Hwebhook a Hw) as (_ & ? & _).
  - destruct (Hwebhook a Ha) as (Hsource & Hcreator & priority & ->).
    split; [done|]. split; [apply parsed_severity_range|]. split; [|done].
    intros Hp. by destruct (Hpolled a Hp) as (_ & ? & _).
Qed.

End AlertsMore.

(** ** Further properties: webhook provisioning *)

Section ProvisioningMore.

Ltac run_registration :=
  unfold setup_webhook_registration, try_except, get_webhooks_integration,
    update_webhooks_integration, create_webhooks_integration, request,
    mbind, Api_bind, mret, Api_ret, raise, not_found_or_forbidden;
  simpl.

Lemma append_inj_r (p x y : string) : p +:+ x = p +:+ y → x = y.
Proof. induction p as [|c p IH]; simpl; [done|]. intros [= H]. by apply IH. Qed.

(** The first half touches no registration but the tenant's own. *)
Lemma registration_frame webhook_name keep_api_url api_key v cs other :
  other ≠ webhook_name →
  Vendor.webhooks
    (World.vendor
       (setup_webhook_registration webhook_name keep_api_url api_key (World.mk v cs)).1)
  !! other
  = Vendor.webhooks v !! other.
Proof.
  intros Hne. run_registration.
  destruct (Vendor.can_get_webhook v) eqn:Hget;
  destruct (Vendor.can_create_webhook v) eqn:Hcreate;
  destruct (Vendor.can_update_webhook v) eqn:Hupdate;
  destruct (Vendor.webhooks v !! webhook_name) as [r|] eqn:Hr; simpl;
  try case_bool_decide; simpl;
  repeat progress
    (rewrite ?Hget, ?Hcreate, ?Hupdate, ?Hr,
       ?errors_already_exists, ?errors_forbidden, ?errors_not_found; simpl);
  first [done | by rewrite lookup_insert_ne].
Qed.

(** [setup_webhook] split into its two halves. *)
Lemma setup_webhook_phases tenant_id keep_api_url api_key setup_alerts w :
  let webhook_name := KEEP_DATADOG_WEBHOOK_INTEGRATION_NAME +:+ "-" +:+ tenant_id in
  setup_webhook tenant_id keep_api_url api_key setup_alerts w
  = match setup_webhook_registration webhook_name keep_api_url api_key w with
    | (w', inr _) =>
        (if setup_alerts
         then monitors ← list_monitors; setup_webhook_monitors webhook_name monitors
         else mret tt) w'
    | (w', inl e) => (w', inl e)
    end.
Proof.
  intros webhook_name. unfold setup_webhook. fold webhook_name.
  unfold mbind at 1, Api_bind at 1.
  by destruct (setup_webhook_registration _ _ _ _) as [w' [e|[]]].
Qed.

(** X11. Provisioning a tenant leaves every registration under another name
    as it was, and the names of two tenants differ; so one tenant's
    provisioning never touches another tenant's webhook. *)
Theorem setup_webhook_frame tenant_id keep_api_url api_key setup_alerts w :
  let after :=
    Vendor.webhooks
      (World.vendor (setup_webhook tenant_id keep_api_url api_key setup_alerts w).1) in
  (∀ other, other ≠ KEEP_DATADOG_WEBHOOK_INTEGRATION_NAME +:+ "-" +:+ tenant_id →
            after !! other = Vendor.webhooks (World.vendor w) !! other)
  ∧ (∀ tenant, tenant ≠ tenant_id →
               after !! (KEEP_DATADOG_WEBHOOK_INTEGRATION_NAME +:+ "-" +:+ tenant)
               = Vendor.webhooks (World.vendor w)
                 !! (KEEP_DATADOG_WEBHOOK_INTEGRATION_NAME +:+ "-" +:+ tenant)).
Proof.
  intros after.
  assert (∀ other, other ≠ KEEP_DATADOG_WEBHOOK_INTEGRATION_NAME +:+ "-" +:+ tenant_id →
            after !! other = Vendor.webhooks (World.vendor w) !! other) as Hframe.
  { intros other Hne. unfold after. rewrite setup_webhook_phases.
    destruct w as [v cs].
    pose proof (registration_frame _ keep_api_url api_key v cs other Hne) as Hreg.
    destruct (setup_webhook_registration _ keep_api_url api_key (World.mk v cs))
      as [w' [e|[]]]; simpl in *; [done|].
    destruct (alerts_phase setup_alerts
                (KEEP_DATADOG_WEBHOOK_INTEGRATION_NAME +:+ "-" +:+ tenant_id) w')
      as (v2 & cs2 & -> & Hw2 & _). simpl. by rewrite Hw2. }
  split; [exact Hframe|].
  intros tenant Hne. apply Hframe. intros Heq. apply Hne.
  apply append_inj_r in Heq. by apply (append_inj_r "-") in Heq.
Qed.

(** X12. With lookups allowed, what a call leaves registered for the tenant:
    an existing webhook with the desired URL is left as it is, so a new API
    key does not reach its headers; one with another URL gets the URL, the
    headers with the API key and the payload template, and keeps its
    encoding, when updates are allowed; a missing one is created with the
    JSON encoding when creation is allowed. *)
Theorem setup_webhook_registers tenant_id keep_api_url api_key setup_alerts v cs :
  Vendor.can_get_webhook v = true →
  let webhook_name := KEEP_DATADOG_WEBHOOK_INTEGRATION_NAME +:+ "-" +:+ tenant_id in
  let after :=
    Vendor.webhooks
      (World.vendor
         (setup_webhook tenant_id keep_api_url api_key setup_alerts (World.mk v cs)).1) in
  match Vendor.webhooks v !! webhook_name with
  | Some r =>
      (Registration.url r = keep_api_url → after = Vendor.webhooks v)
      ∧ (Registration.url r ≠ keep_api_url → Vendor.can_update_webhook v = true →
         after !! webhook_name
         = Some (Registration.mk keep_api_url (custom_headers_of api_key)
                   (Registration.encode_as r) WEBHOOK_PAYLOAD))
  | None =>
      Vendor.can_create_webhook v = true →
      after !! webhook_name
      = Some (Registration.mk keep_api_url (custom_headers_of api_key)
                (Some "json") WEBHOOK_PAYLOAD)
  end.
Proof.
  intros Hget webhook_name after.
  assert (after = Vendor.webhooks
                    (World.vendor
                       (setup_webhook_registration webhook_name keep_api_url api_key
                          (World.mk v cs)).1)) as ->.
  { unfold after. rewrite setup_webhook_phases. fold webhook_name.
    destruct (setup_webhook_registration webhook_name keep_api_url api_key (World.mk v cs))
      as [w' [e|[]]]; simpl; [done|].
    destruct (alerts_phase setup_alerts webhook_name w') as (v2 & cs2 & -> & Hw2 & _).
    done. }
  destruct (Vendor.webhooks v !! webhook_name) as [r|] eqn:Hr.
  - split.
    + intros Hurl. by rewrite (registration_unchanged _ _ _ _ _ _ Hget Hr Hurl).
    + intros Hurl Hupdate. run_registration.
      rewrite Hget, Hr. simpl. rewrite bool_decide_false by done. simpl.
      rewrite Hupdate, Hr. simpl. by rewrite lookup_insert_eq.
  - intros Hcreate. run_registration.
    rewrite Hget, Hr. simpl. rewrite Hcreate, Hr. simpl. by rewrite lookup_insert_eq.
Qed.

Lemma starts_with_refl p : Str.starts_with p p = true.
Proof.
  induction p as [|c p IH]; simpl; [done|]. by rewrite bool_decide_true, IH.
Qed.

Lemma contains_unfold p s :
  Str.contains p s
  = Str.starts_with p s
    || match s with
       | EmptyString => false
       | String _ rest => Str.contains p rest
       end.
Proof. by destruct s. Qed.

Lemma contains_app_l p a s : Str.contains p s = true → Str.contains p (a +:+ s) = true.
Proof.
  intros Hs. induction a as [|c a IH]; simpl; [done|].
  rewrite IH. apply orb_true_r.
Qed.

(** The message that [setup_webhook] writes mentions the webhook. *)
Lemma patched_message_mentions webhook_name message :
  Str.contains ("@webhook-" +:+ webhook_name)
    (message +:+ " @webhook-" +:+ webhook_name) = true.
Proof.
  apply contains_app_l.
  change (" @webhook-" +:+ webhook_name)
    with (String " " ("@webhook-" +:+ webhook_name)).
  rewrite contains_unfold.
  rewrite (contains_unfold _ ("@webhook-" +:+ webhook_name)), starts_with_refl.
  apply orb_true_r.
Qed.

(** After the loop over the listed monitors, every monitor that may be
    updated mentions the webhook. *)
Lemma monitors_loop_mentions webhook_name listed w :
  (∀ m, m ∈ Vendor.monitors (World.vendor w) →
        Vendor.can_update_monitor (World.vendor w) (Monitor.id m) = true →
        Str.contains ("@webhook-" +:+ webhook_name) (Monitor.message m) = true
        ∨ ∃ m0, m0 ∈ listed ∧ Monitor.id m0 = Monitor.id m
                ∧ Str.contains ("@webhook-" +:+ webhook_name) (Monitor.message m0)
                  = false) →
  let w' := (setup_webhook_monitors webhook_name listed w).1 in
  ∀ m, m ∈ Vendor.monitors (World.vendor w') →
       Vendor.can_update_monitor (World.vendor w') (Monitor.id m) = true →
       Str.contains ("@webhook-" +:+ webhook_name) (Monitor.message m) = true.
Proof.
  revert w. induction listed as [|m0 rest IH]; intros [v cs] Hinv; simpl.
  - intros m Hm Hcan. destruct (Hinv m Hm Hcan) as [?|(m0 & Hin & _)]; [done|].
    by apply elem_of_nil in Hin.
  - unfold mbind, Api_bind, setup_webhook_monitor, try_except, update_monitor,
      request, mret, Api_ret. simpl.
    destruct (Str.contains ("@webhook-" +:+ webhook_name) (Monitor.message m0))
      eqn:Hm0; simpl.
    + apply IH. simpl. intros m Hm Hcan.
      destruct (Hinv m Hm Hcan) as [?|(m1 & Hin & Hid & Hno)]; [by left|].
      right. exists m1. apply elem_of_cons in Hin as [->|Hin]; [congruence|done].
    + destruct (Vendor.can_update_monitor v (Monitor.id m0)) eqn:Hcan0; simpl.
      * apply IH. simpl. intros m' Hm' Hcan'.
        apply list_elem_of_fmap in Hm' as (m & -> & Hm).
        unfold set_message in *. case_bool_decide as Hid; simpl in *.
        -- left. apply patched_message_mentions.
        -- destruct (Hinv m Hm Hcan') as [?|(m1 & Hin & Hid1 & Hno)]; [by left|].
           right. exists m1. apply elem_of_cons in Hin as [->|Hin]; [congruence|done].
      * apply IH. simpl. intros m Hm Hcan.
        destruct (Hinv m Hm Hcan) as [?|(m1 & Hin & Hid & Hno)]; [by left|].
        right. exists m1. apply elem_of_cons in Hin as [->|Hin]; [congruence|done].
Qed.

(** When every listed monitor mentions the webhook, the loop makes no call. *)
Lemma monitors_loop_quiet webhook_name listed w :
  (∀ m, m ∈ listed →
        Str.contains ("@webhook-" +:+ webhook_name) (Monitor.message m) = true) →
  setup_webhook_monitors webhook_name listed w = (w, inr tt).
Proof.
  intros Hall. induction listed as [|m0 rest IH]; simpl; [done|].
  unfold mbind, Api_bind, setup_webhook_monitor, try_except, mret, Api_ret.
  rewrite (Hall m0) by left. simpl. apply IH. intros m Hm. apply Hall. by right.
Qed.

(** X13. With credentials that may look up and update webhooks and update
    every monitor, a call that patches the monitors and returns leaves every
    monitor's message mentioning the webhook, and a second call with the same
    arguments only looks the webhook up and lists the monitors: it updates no
    monitor again. *)
Theorem setup_webhook_patches_once tenant_id keep_api_url api_key v w1 :
  Vendor.can_get_webhook v = true →
  Vendor.can_update_webhook v = true →
  (∀ i, Vendor.can_update_monitor v i = true) →
  setup_webhook tenant_id keep_api_url api_key true (World.mk v []) = (w1, inr tt) →
  let webhook_name := KEEP_DATADOG_WEBHOOK_INTEGRATION_NAME +:+ "-" +:+ tenant_id in
  (∀ m, m ∈ Vendor.monitors (World.vendor w1) →
        Str.contains ("@webhook-" +:+ webhook_name) (Monitor.message m) = true)
  ∧ setup_webhook tenant_id keep_api_url api_key true (World.mk (World.vendor w1) [])
    = (World.mk (World.vendor w1) [GetWebhook webhook_name; ListMonitors], inr tt).
Proof.
  intros Hget Hupdate Hmonitors Hfirst webhook_name.
  rewrite setup_webhook_phases in Hfirst. fold webhook_name in Hfirst.
  destruct (setup_webhook_registration webhook_name keep_api_url api_key (World.mk v []))
    as [[v' cs'] [e|[]]] eqn:Hreg; [done|].
  destruct (registration_returns _ _ _ _ _ _ Hreg) as (Hp & _ & r & Hr & Hurl).
  simpl in Hp, Hr. destruct Hp as (Hget' & _ & _ & Hlist' & Hmon').
  unfold mbind, Api_bind, list_monitors, request in Hfirst. simpl in Hfirst.
  destruct (Vendor.can_list_monitors v') eqn:Hlist; simpl in Hfirst; [|done].
  destruct (monitors_phase webhook_name (Vendor.monitors v')
              (World.mk v' (cs' ++ [ListMonitors])))
    as (v1 & cs1 & Hrun & Hw1 & Hp1 & _).
  pose proof (monitors_loop_mentions webhook_name (Vendor.monitors v')
                (World.mk v' (cs' ++ [ListMonitors]))) as Hmentions.
  rewrite Hrun in Hfirst, Hmentions. injection Hfirst as <-. simpl in *.
  destruct Hp1 as (Hget1 & _ & _ & Hlist1 & Hmon1).
  assert (∀ m, m ∈ Vendor.monitors v1 →
            Str.contains ("@webhook-" +:+ webhook_name) (Monitor.message m) = true)
    as Hall.
  { intros m Hm. apply Hmentions; [|done|].
    - intros m0 Hm0 _.
      destruct (Str.contains ("@webhook-" +:+ webhook_name) (Monitor.message m0))
        eqn:Hc; [by left|]. right. by exists m0.
    - rewrite Hmon1, Hmon'. apply Hmonitors. }
  split; [exact Hall|].
  rewrite setup_webhook_phases. fold webhook_name.
  rewrite (registration_unchanged webhook_name keep_api_url api_key v1 [] r);
    [|congruence|by rewrite Hw1|by apply Hurl].
  unfold mbind, Api_bind, list_monitors, request. simpl.
  rewrite Hlist1, Hlist. simpl.
  by rewrite monitors_loop_quiet.
Qed.

End ProvisioningMore.

(** ** Further properties: stripped tokens *)

Lemma lstrip_clean c s : Str.starts_with (String c EmptyString) (Str.lstrip c s) = false.
Proof.
  induction s as [|a rest IH]; simpl; [done|].
  case_bool_decide as Ha; [exact IH|].
  simpl. rewrite bool_decide_false; [done|congruence].
Qed.

Lemma rstrip_keeps_head c d s :
  Str.starts_with (String d EmptyString) s = false →
  Str.starts_with (String d EmptyString) (Str.rstrip c s) = false.
Proof.
  destruct s as [|a rest]; simpl; [done|].
  rewrite andb_true_r. intros Hhead.
  destruct (Str.rstrip c rest); [destruct (bool_decide (a = c))|]; simpl;
    rewrite ?andb_true_r; done.
Qed.

Lemma rstrip_clean c s : Text.last (Str.rstrip c s) ≠ Some c.
Proof.
  induction s as [|a rest IH]; simpl; [done|].
  destruct (Str.rstrip c rest) as [|b kept] eqn:Hrest.
  - case_bool_decide; simpl; congruence.
  - exact IH.
Qed.

Lemma lstrip_id c s :
  Str.starts_with (String c EmptyString) s = false → Str.lstrip c s = s.
Proof.
  destruct s as [|a rest]; simpl; [done|].
  rewrite andb_true_r. intros Hhead. apply bool_decide_eq_false in Hhead.
  rewrite bool_decide_false; [done|congruence].
Qed.

Lemma rstrip_cons c a rest :
  Str.rstrip c (String a rest)
  = match Str.rstrip c rest with
    | EmptyString => if bool_decide (a = c) then EmptyString else String a EmptyString
    | kept => String a kept
    end.
Proof. done. Qed.

Lemma rstrip_id c s : Text.last s ≠ Some c → Str.rstrip c s = s.
Proof.
  induction s as [|a rest IH]; [done|].
  destruct rest as [|b rest'].
  - simpl. intros Ha. rewrite bool_decide_false; [done|congruence].
  - intros Hlast. rewrite rstrip_cons, IH by exact Hlast. done.
Qed.

(** A stripped token has no bracket left at its ends, and stripping it again
    changes nothing. *)
Lemma strip_brackets_clean s :
  Str.starts_with "[" (strip_brackets s) = false
  ∧ Text.last (strip_brackets s) ≠ Some "]"%char
  ∧ strip_brackets (strip_brackets s) = strip_brackets s.
Proof.
  assert (Str.starts_with "[" (strip_brackets s) = false) as Hhead
    by apply rstrip_keeps_head, lstrip_clean.
  assert (Text.last (strip_brackets s) ≠ Some "]"%char) as Hlast
    by apply rstrip_clean.
  split; [done|]. split; [done|].
  unfold strip_brackets at 1. by rewrite lstrip_id, rstrip_id.
Qed.

Section StatusMore.

Variable fromtimestamp_isoformat : PyVal → option string.
Variable fromtimestamp_ms_str : PyVal → option string.
Variable combine : list PyVal → string.

Abbreviation from_polled := (from_polled fromtimestamp_isoformat combine).
Abbreviation from_webhook := (from_webhook fromtimestamp_ms_str combine).

(** X14. The status of an alert of either path never starts with an opening
    bracket and never ends with a closing one, however many brackets the
    title token had around it; stripping a stripped token changes nothing. *)
Theorem alert_status_stripped a :
  from_polled a ∨ from_webhook a →
  Str.starts_with "[" (AlertDto.status a) = false
  ∧ Text.last (AlertDto.status a) ≠ Some "]"%char
  ∧ strip_brackets (AlertDto.status a) = AlertDto.status a.
Proof.
  intros [(monitors & events & Hin)|(event & Ha)].
  - unfold _get_alerts in Hin. rewrite get_alerts_loop_spec in Hin. simpl in Hin.
    apply list_elem_of_omap in Hin as (ev & _ & Ha).
    destruct (normalize_event_inv _ _ _ _ _ Ha)
      as (sev & st & title & received & m & Ht & Hr & Hm).
    destruct (normalize_event_ok _ combine _ _ _ _ _ _ _ Ht Hr Hm)
      as (a' & Ha' & _ & _ & Hst & _).
    assert (a' = a) as -> by congruence. rewrite Hst.
    destruct (is_muted m ev); [done|apply strip_brackets_clean].
  - destruct (format_alert_inv _ _ _ _ Ha)
      as (? & ? & ? & ? & ? & ? & st & ? & ? & _ & _ & _ & _ & _ & _ & _ & _ & -> & _).
    apply strip_brackets_clean.
Qed.

End StatusMore.

(** ** Further properties: timeframes *)

Lemma drop_last_snoc body c : Text.drop_last (body +:+ String c EmptyString) = body.
Proof.
  induction body as [|a rest IH]; simpl; [done|].
  rewrite IH. by destruct rest.
Qed.

Lemma last_snoc body c : Text.last (body +:+ String c EmptyString) = Some c.
Proof.
  induction body as [|a rest IH]; simpl; [done|].
  rewrite IH. by destruct rest.
Qed.

Lemma snoc_drop_last s c :
  Text.last s = Some c → s = Text.drop_last s +:+ String c EmptyString.
Proof.
  induction s as [|a rest IH]; [done|].
  destruct rest as [|b rest'].
  - simpl. by intros [= ->].
  - intros Hlast.
    change (Text.drop_last (String a (String b rest')))
      with (String a (Text.drop_last (String b rest'))).
    change (String a (Text.drop_last (String b rest')) +:+ String c EmptyString)
      with (String a (Text.drop_last (String b rest') +:+ String c EmptyString)).
    f_equal. by apply IH.
Qed.

Section TimeframeMore.

Variable int_of_str : string → option Z.

Abbreviation convert := (convert_to_seconds int_of_str).

(** X15. For one and the same number, a timeframe in weeks is seven times
    the one in days, days are 24 hours, hours 60 minutes and minutes 60
    seconds, and the one in seconds is the number itself. *)
Theorem convert_to_seconds_units body :
  convert (body +:+ "w") = Z.mul 7 <$> convert (body +:+ "d")
  ∧ convert (body +:+ "d") = Z.mul 24 <$> convert (body +:+ "h")
  ∧ convert (body +:+ "h") = Z.mul 60 <$> convert (body +:+ "m")
  ∧ convert (body +:+ "m") = Z.mul 60 <$> convert (body +:+ "s")
  ∧ convert (body +:+ "s") = int_of_str body.
Proof.
  unfold convert_to_seconds. rewrite !drop_last_snoc, !last_snoc.
  destruct (int_of_str body) as [n|]; simpl; [|done].
  repeat split; f_equal; lia.
Qed.

(** X16. [convert_to_seconds] returns exactly for a string that ends in one
    of the units s, m, h, d, w and whose part before the unit [int] accepts;
    the empty string and a number without a unit raise. *)
Theorem convert_to_seconds_returns_iff s :
  is_Some (convert s)
  ↔ ∃ body unit, s = body +:+ String unit EmptyString
                 ∧ unit ∈ ["s"; "m"; "h"; "d"; "w"]%char
                 ∧ is_Some (int_of_str body).
Proof.
  unfold convert_to_seconds. split.
  - intros [r Hr].
    destruct (int_of_str (Text.drop_last s)) as [n|] eqn:Hn; [simpl in Hr|done].
    destruct (Text.last s) as [unit|] eqn:Hlast; [simpl in Hr|done].
    destruct (seconds_per_unit unit) as [per|] eqn:Hper; [|done].
    exists (Text.drop_last s), unit. split; [by apply snoc_drop_last|].
    split; [|by eexists].
    unfold seconds_per_unit in Hper.
    repeat case_bool_decide; try done; subst; set_solver.
  - intros (body & unit & -> & Hunit & [n Hn]).
    rewrite drop_last_snoc, last_snoc, Hn. simpl.
    assert (is_Some (seconds_per_unit unit)) as [per ->]; [|by eexists].
    repeat (apply elem_of_cons in Hunit as [->|Hunit]; [by eexists|]).
    by apply elem_of_nil in Hunit.
Qed.

End TimeframeMore.

(** ** Further properties: muting *)

Lemma join_is_wildcard (groups : list string) :
  Text.join "," groups = "*" ↔ groups = ["*"].
Proof.
  unfold Text.join. split; [|by intros ->].
  destruct groups as [|x [|y rest]]; simpl.
  - done.
  - by intros ->.
  - destruct x as [|a [|b x']]; simpl; intros [=].
Qed.

Section MutingMore.

Variable int_of : PyVal → option Z.
Variable Datetime : Type.
Variable fromisoformat : string → option Datetime.
Variable timestamp : Datetime → option Z.
Variable fromtimestamp_ms_str : PyVal → option string.
Variable combine : list PyVal → string.

Abbreviation mute := (mute_monitor int_of Datetime fromisoformat timestamp).
Abbreviation unmute := (unmute_monitor int_of).

(** X17. Muting and unmuting the same monitor and groups address the same
    monitor id, and the same scope unless the groups are the single
    wildcard: then the mute call sends the empty scope and the unmute call
    the wildcard itself. *)
Theorem mute_unmute_scope monitor_id groups end_ c u :
  mute monitor_id groups end_ = Some c →
  unmute monitor_id groups = Some u →
  MuteCall.monitor_id c = UnmuteCall.monitor_id u
  ∧ UnmuteCall.scope u = Text.join "," groups
  ∧ (groups ≠ ["*"] → MuteCall.scope c = UnmuteCall.scope u)
  ∧ (groups = ["*"] → MuteCall.scope c = "" ∧ UnmuteCall.scope u = "*").
Proof.
  unfold mute_monitor, unmute_monitor, mute_scope. intros Hc Hu.
  destruct (match end_ with
            | EndStr _ s => fromisoformat s
            | EndDatetime _ d => Some d
            end) as [d|]; [simpl in Hc|done].
  destruct (int_of monitor_id) as [i|]; [simpl in Hc, Hu|done].
  destruct (timestamp d) as [ts|]; [simpl in Hc|done].
  injection Hc as <-. injection Hu as <-. simpl.
  split; [done|]. split; [done|]. split.
  - intros Hne. rewrite bool_decide_false; [done|]. by rewrite join_is_wildcard.
  - by intros ->.
Qed.

(** X18. Muting with the groups of a webhook alert sends the vendor the
    [scopes] string of the payload the alert came from, except that the
    wildcard and absent or false scopes are sent as the empty scope. *)
Theorem mute_webhook_alert_scope event a monitor_id end_ c :
  (format_alert fromtimestamp_ms_str combine event).2 = Some a →
  mute monitor_id (AlertDto.groups a) end_ = Some c →
  MuteCall.scope c
  = match dict_get event "scopes" (PyStr "") with
    | PyStr s => if bool_decide (s = "*") then "" else s
    | _ => ""
    end.
Proof.
  intros Ha Hc.
  assert (MuteCall.scope c = mute_scope (AlertDto.groups a)) as ->.
  { unfold mute_monitor in Hc.
    destruct (match end_ with
              | EndStr _ s => fromisoformat s
              | EndDatetime _ d => Some d
              end) as [d|]; [simpl in Hc|done].
    destruct (int_of monitor_id) as [i|]; [simpl in Hc|done].
    destruct (timestamp d) as [ts|]; [simpl in Hc|done].
    by injection Hc as <-. }
  destruct (format_alert_inv _ _ _ _ Ha)
    as (? & ? & ? & ? & ? & ? & ? & ? & groups & _ & _ & _ & _ & _ & _ & Hgroups
        & _ & _ & _ & _ & -> & _).
  unfold webhook_groups in Hgroups. unfold mute_scope.
  destruct (dict_get event "scopes" (PyStr "")) as [|s|z|l|d]; simpl in Hgroups;
    try (injection Hgroups as <-; done);
    try (case_bool_decide; simpl in Hgroups; [by injection Hgroups as <-|done]).
  case_bool_decide as Hs; simpl in Hgroups; injection Hgroups as <-.
  - subst s. done.
  - by rewrite (join_split_inverse "," None s).
Qed.

End MutingMore.

(** ** Further properties: events and monitors by id *)

(** X19. Selecting the events of a monitor by the decimal text of its id is
    selecting them by the id itself, in the order of the answer; an id
    written any other way selects none of that monitor's events. *)
Theorem get_monitor_events_by_id (events : list Event.t) (monitor_id : Z) :
  get_monitor_events events (pretty monitor_id)
  = List.filter (λ event, bool_decide (Event.monitor_id event = monitor_id)) events
  ∧ ∀ text event, text ≠ pretty monitor_id →
                  event ∈ get_monitor_events events text →
                  Event.monitor_id event ≠ monitor_id.
Proof.
  split.
  - unfold get_monitor_events. induction events as [|event rest IH]; simpl; [done|].
    rewrite IH. destruct (decide (Event.monitor_id event = monitor_id)) as [Heq|Hne].
    + rewrite !bool_decide_true; [done..|by rewrite Heq].
    + rewrite !bool_decide_false; [done..|].
      intros Heq. by apply (inj pretty) in Heq.
  - intros text event Htext Hin Hid. unfold get_monitor_events in Hin.
    apply list_elem_of_In, filter_In in Hin as [_ Hmatch].
    apply bool_decide_eq_true in Hmatch. congruence.
Qed.

Section AlertsConfigurationMore.

Variable json_dumps : Monitor.t → string.

Abbreviation configuration := (get_alerts_configuration json_dumps).

Lemma filter_by_id_raises alert_id (monitors : list string) :
  filter_by_id alert_id monitors = match monitors with [] => Some [] | _ => None end.
Proof. by destruct monitors. Qed.

(** X20. Without an alert id, [get_alerts_configuration] returns the JSON
    text of every monitor, in order; with one, it returns the empty list on
    an account without monitors and raises on any other, so it never returns
    the monitor asked for. *)
Theorem get_alerts_configuration_filter monitors alert_id :
  (alert_id_given alert_id = false →
   configuration (Some monitors) alert_id = Some (json_dumps <$> monitors))
  ∧ (alert_id_given alert_id = true →
     configuration (Some monitors) alert_id
     = match monitors with [] => Some [] | _ => None end).
Proof.
  unfold get_alerts_configuration. simpl. split; intros ->; [done|].
  rewrite filter_by_id_raises. by destruct monitors.
Qed.

End AlertsConfigurationMore.

(** ** Further properties: queries and scope validation *)

Lemma foldl_pointwise {A B} (f g : A → B → A) (l : list B) (a : A) :
  (∀ a x, f a x = g a x) → foldl f a l = foldl g a l.
Proof.
  intros Hfg. revert a. induction l as [|x l IH]; intros a; simpl; [done|].
  by rewrite Hfg, IH.
Qed.

Section QueriesMore.

Variable int_of_str : string → option Z.
Variable Time : Type.
Variable Datetime : Type.
Variable time_time : nat → Time.
Variable time_minus : Time → Z → option Time.
Variable fromtimestamp : Time → option Datetime.
Variable timestamp_ms : Datetime → option Z.
Variable list_logs : LogsRequest Datetime → Raised + PyVal.
Variable query_metrics : MetricsRequest Time → Raised + PyVal.
Variable probe_list_monitors : Raised + unit.
Variable probe_create_monitor : Raised + Z.
Variable probe_delete_monitor : Z → Raised + unit.
Variable probe_create_webhooks_integration : Raised + unit.
Variable probe_query_metrics : Raised + unit.
Variable probe_list_events : Raised + unit.
Variable reason : ApiException.t → string.

Abbreviation query :=
  (_query int_of_str Time Datetime time_time time_minus fromtimestamp
     list_logs query_metrics).
Abbreviation scope_probe :=
  (validate_scope int_of_str Time Datetime time_time time_minus fromtimestamp
     list_logs query_metrics probe_list_monitors probe_create_monitor
     probe_delete_monitor probe_create_webhooks_integration probe_query_metrics
     probe_list_events).
Abbreviation scopes_loop :=
  (validate_scopes_loop int_of_str Time Datetime time_time time_minus fromtimestamp
     list_logs query_metrics probe_list_monitors probe_create_monitor
     probe_delete_monitor probe_create_webhooks_integration probe_query_metrics
     probe_list_events reason).
Abbreviation all_scopes :=
  (validate_scopes int_of_str Time Datetime time_time time_minus fromtimestamp
     list_logs query_metrics probe_list_monitors probe_create_monitor
     probe_delete_monitor probe_create_webhooks_integration probe_query_metrics
     probe_list_events reason).

(** X21. [_query] never returns for a query type other than "logs" and
    "metrics"; with a timeframe that [convert_to_seconds] rejects it raises
    and leaves the window fields as they were; and whenever it returns, both
    fields are set.  On a new instance, where both are [None], [expose]
    raises. *)
Theorem query_window self q timeframe query_type :
  (query_type ≠ "logs" → query_type ≠ "metrics" →
   ∀ results, (query self q timeframe query_type).2 ≠ inr results)
  ∧ (convert_to_seconds int_of_str timeframe = None →
     query self q timeframe query_type = (self, inl RaisedOther))
  ∧ (∀ results, (query self q timeframe query_type).2 = inr results →
       is_Some (window_to (query self q timeframe query_type).1)
       ∧ is_Some (window_from (query self q timeframe query_type).1))
  ∧ expose Datetime timestamp_ms (mkWindow None None) = None.
Proof.
  unfold _query.
  destruct (convert_to_seconds int_of_str timeframe) as [n|]; [|by repeat split].
  destruct (fromtimestamp (time_time 0%nat)) as [to_|]; [|by repeat split].
  destruct (time_minus (time_time 1%nat) n ≫= fromtimestamp) as [from_|];
    [|by repeat split].
  split; [|split; [done|split; [|done]]].
  - intros Hlogs Hmetrics results. rewrite !bool_decide_false by done. done.
  - intros results. repeat case_bool_decide; simpl.
    + intros _. split; by eexists.
    + destruct (time_minus _ _); simpl; [|done]. intros _. split; by eexists.
    + done.
Qed.

(** What a probe answers does not depend on the window fields. *)
Lemma scope_probe_outcome self1 self2 scope_name :
  (scope_probe self1 scope_name).2 = (scope_probe self2 scope_name).2.
Proof.
  unfold validate_scope. repeat case_bool_decide; try done.
  unfold _query.
  destruct (convert_to_seconds int_of_str "1h"); [|done].
  destruct (fromtimestamp (time_time 0%nat)); [|done].
  destruct (time_minus (time_time 1%nat) z ≫= fromtimestamp); [|done].
  simpl. by destruct (list_logs _).
Qed.

Lemma scopes_loop_spec provider_scopes self scopes :
  (∀ scope, scope ∈ provider_scopes →
            (scope_probe self (ProviderScope.name scope)).2 ≠ inl RaisedOther) →
  ∃ self',
    scopes_loop provider_scopes self scopes
    = (self',
       inr (foldl (λ acc scope,
                     <[ProviderScope.name scope :=
                         match (scope_probe self (ProviderScope.name scope)).2 with
                         | inl (RaisedApi e) => Denied (reason e)
                         | _ => Granted
                         end]> acc)
                  scopes provider_scopes)).
Proof.
  revert self scopes. induction provider_scopes as [|scope rest IH];
    intros self scopes Hok; simpl; [by eexists|].
  pose proof (Hok scope ltac:(left)) as Hscope.
  destruct (scope_probe self (ProviderScope.name scope)) as [self1 [[e|]|[]]] eqn:Hprobe;
    simpl in *; [| done |].
  - destruct (IH self1 (<[ProviderScope.name scope := Denied (reason e)]> scopes))
      as [self' ->].
    { intros scope' Hin. rewrite (scope_probe_outcome self1 self). apply Hok. by right. }
    exists self'. f_equal. f_equal. apply foldl_pointwise. intros acc scope'.
    by rewrite (scope_probe_outcome self1 self).
  - destruct (IH self1 (<[ProviderScope.name scope := Granted]> scopes))
      as [self' ->].
    { intros scope' Hin. rewrite (scope_probe_outcome self1 self). apply Hok. by right. }
    exists self'. f_equal. f_equal. apply foldl_pointwise. intros acc scope'.
    by rewrite (scope_probe_outcome self1 self).
Qed.

Lemma scope_probe_create_webhooks self :
  (scope_probe self "create_webhooks").2
  = create_webhooks_probe probe_create_webhooks_integration.
Proof. unfold validate_scope. by repeat (case_bool_decide; try done). Qed.

Lemma scope_probe_monitors_write self :
  (scope_probe self "monitors_write").2
  = match probe_create_monitor with
    | inr monitor_id => probe_delete_monitor monitor_id
    | inl e => inl e
    end.
Proof. unfold validate_scope. by repeat (case_bool_decide; try done). Qed.

(** X22. When no probe raises anything but an [ApiException],
    [validate_scopes] returns a verdict for each of the six declared scopes
    and for no other name; the verdict of a scope depends on its own probe
    only, so a refused scope does not keep the others from being validated;
    every scope that a provider method requires has a verdict;
    "create_webhooks" is granted unless the create call was refused as
    forbidden (so also when the call failed in another way), and
    "monitors_write" is granted exactly when the throwaway monitor was both
    created and deleted. *)
Theorem validate_scopes_verdicts self :
  (∀ scope, scope ∈ PROVIDER_SCOPES →
            (scope_probe self (ProviderScope.name scope)).2 ≠ inl RaisedOther) →
  ∃ self' scopes,
    all_scopes self = (self', inr scopes)
    ∧ dom scopes = list_to_set (ProviderScope.name <$> PROVIDER_SCOPES)
    ∧ (∀ scope, scope ∈ PROVIDER_SCOPES →
                scopes !! ProviderScope.name scope
                = Some match (scope_probe self (ProviderScope.name scope)).2 with
                       | inl (RaisedApi e) => Denied (reason e)
                       | _ => Granted
                       end)
    ∧ (∀ method s, method ∈ PROVIDER_METHODS → s ∈ ProviderMethod.scopes method →
                   is_Some (scopes !! s))
    ∧ (scopes !! "create_webhooks" = Some Granted
       ↔ ∀ e, probe_create_webhooks_integration = inl (RaisedApi e) →
              ApiException.status e ≠ Forbidden)
    ∧ (scopes !! "monitors_write" = Some Granted
       ↔ ∃ monitor_id, probe_create_monitor = inr monitor_id
                       ∧ probe_delete_monitor monitor_id = inr tt).
Proof.
  intros Hok. unfold validate_scopes.
  destruct (scopes_loop_spec PROVIDER_SCOPES self ∅ Hok) as [self' ->].
  set (scopes := foldl _ ∅ PROVIDER_SCOPES).
  exists self', scopes. split; [reflexivity|].
  assert (∀ scope, scope ∈ PROVIDER_SCOPES →
    scopes !! ProviderScope.name scope
    = Some match (scope_probe self (ProviderScope.name scope)).2 with
           | inl (RaisedApi e) => Denied (reason e)
           | _ => Granted
           end) as Hlookup.
  { intros scope Hin. unfold scopes, PROVIDER_SCOPES in *.
    cbn [foldl ProviderScope.name].
    repeat (apply elem_of_cons in Hin as [->|Hin];
            [cbn [ProviderScope.name];
             repeat (rewrite lookup_insert_ne by done); by rewrite lookup_insert_eq|]).
    by apply elem_of_nil in Hin. }
  assert (∀ scope_name,
    scope_name ∈ ProviderScope.name <$> PROVIDER_SCOPES →
    scopes !! scope_name
    = Some match (scope_probe self scope_name).2 with
           | inl (RaisedApi e) => Denied (reason e)
           | _ => Granted
           end
    ∧ (scope_probe self scope_name).2 ≠ inl RaisedOther) as Hname.
  { intros scope_name Hin.
    apply list_elem_of_fmap in Hin as (scope & -> & Hscope).
    split; [by apply Hlookup|by apply Hok]. }
  split; [|split; [exact Hlookup|split; [|split]]].
  - unfold scopes, PROVIDER_SCOPES.
    cbn [foldl ProviderScope.name fmap list_fmap list_to_set].
    rewrite !dom_insert_L, dom_empty_L. set_solver.
  - intros method s Hmethod Hs. unfold PROVIDER_METHODS in Hmethod.
    assert (s ∈ ProviderScope.name <$> PROVIDER_SCOPES) as Hin.
    { repeat (apply elem_of_cons in Hmethod as [->|Hmethod];
              [cbn [ProviderMethod.scopes] in Hs;
               apply list_elem_of_singleton in Hs as ->;
               unfold PROVIDER_SCOPES; cbn [fmap list_fmap ProviderScope.name];
               repeat constructor|]).
      by apply elem_of_nil in Hmethod. }
    destruct (Hname s Hin) as [-> _]. by eexists.
  - destruct (Hname "create_webhooks"
                ltac:(unfold PROVIDER_SCOPES; cbn [fmap list_fmap ProviderScope.name];
                      repeat constructor)) as [-> Hprobe].
    rewrite scope_probe_create_webhooks in *.
    unfold create_webhooks_probe in *.
    destruct probe_create_webhooks_integration as [[e|]|[]]; [| done |].
    + destruct (ApiException.status e) eqn:Hstatus.
      * split; [intros _ e' [= <-]; congruence|done].
      * split; [done|]. intros Hne. by destruct (Hne e eq_refl).
      * split; [intros _ e' [= <-]; congruence|done].
    + split; [by intros _ e' [=]|done].
  - destruct (Hname "monitors_write"
                ltac:(unfold PROVIDER_SCOPES; cbn [fmap list_fmap ProviderScope.name];
                      repeat constructor)) as [-> Hprobe].
    rewrite scope_probe_monitors_write in *.
    destruct probe_create_monitor as [[e|]|monitor_id]; [| done |].
    + split; [done|]. by intros (? & [=] & _).
    + destruct (probe_delete_monitor monitor_id) as [[e|]|[]] eqn:Hdelete; [| done |].
      * split; [done|]. intros (i & [= <-] & Hd). congruence.
      * split; [|done]. intros _. by exists monitor_id.
Qed.

End QueriesMore.

(** ** The further properties on the sample inputs *)

Lemma format_alert_groups_witness :
  ∃ a, (format_alert Sample.ms_str Sample.combine Sample.payload).2 = Some a
       ∧ AlertDto.groups a = ["host:a"]
       ∧ Text.join "," (AlertDto.groups a) = "host:a".
Proof.
  assert (∃ a, (format_alert Sample.ms_str Sample.combine Sample.payload).2 = Some a)
    as [a Ha] by (eexists; vm_compute; reflexivity).
  exists a. split; [exact Ha|].
  destruct (format_alert_groups _ _ _ _ Ha) as (_ & _ & H).
  destruct (H "host:a") as [H1 H2]; [reflexivity | discriminate |].
  split; [exact H1 | exact H2].
Defined.

Lemma format_alert_twice_witness :
  ∃ a a',
    (format_alert Sample.ms_str Sample.combine Sample.payload).2 = Some a
    ∧ (format_alert Sample.ms_str Sample.combine
         (format_alert Sample.ms_str Sample.combine Sample.payload).1).2 = Some a'
    ∧ AlertDto.url a' = PyNone
    ∧ AlertDto.fingerprint a' = AlertDto.fingerprint a.
Proof.
  assert (∃ a, (format_alert Sample.ms_str Sample.combine Sample.payload).2 = Some a)
    as [a Ha] by (eexists; vm_compute; reflexivity).
  destruct (format_alert_twice _ _ _ _ Ha) as (a' & Hrun & Hurl & Heq).
  exists a, a'. split; [exact Ha|]. split; [by rewrite Hrun|].
  split; [exact Hurl|]. rewrite Heq. reflexivity.
Defined.

Lemma alert_invariants_witness :
  ∃ a, a ∈ (_get_alerts Sample.isoformat Sample.combine
              [Sample.cpu_monitor] [Sample.cpu_event]).1
       ∧ AlertDto.source a = ["datadog"]
       ∧ AlertDto.url a = PyNone.
Proof.
  assert (∃ a, _get_alerts Sample.isoformat Sample.combine
                 [Sample.cpu_monitor] [Sample.cpu_event] = ([a], []))
    as [a Ha] by (eexists; vm_compute; reflexivity).
  assert (from_polled Sample.isoformat Sample.combine a) as Hpolled.
  { exists [Sample.cpu_monitor], [Sample.cpu_event]. rewrite Ha. left. }
  exists a. split; [rewrite Ha; left|].
  destruct (alert_invariants Sample.isoformat Sample.ms_str Sample.combine a
              (or_introl Hpolled)) as (Hsource & _ & Hurl & _).
  split; [exact Hsource | exact (Hurl Hpolled)].
Defined.

Lemma setup_webhook_registers_witness :
  Vendor.webhooks
    (World.vendor
       (setup_webhook "acme" Sample.keep_api_url "secret" true
          (World.mk Sample.full_access [])).1)
  !! "keep-datadog-webhook-integration-acme"
  = Some (Registration.mk Sample.keep_api_url (custom_headers_of "secret")
            (Some "json") WEBHOOK_PAYLOAD).
Proof.
  exact (setup_webhook_registers "acme" Sample.keep_api_url "secret" true
           Sample.full_access [] eq_refl eq_refl).
Defined.

Lemma setup_webhook_patches_once_witness :
  ∃ w1,
    setup_webhook "acme" Sample.keep_api_url "secret" true
      (World.mk Sample.full_access []) = (w1, inr tt)
    ∧ setup_webhook "acme" Sample.keep_api_url "secret" true
        (World.mk (World.vendor w1) [])
      = (World.mk (World.vendor w1)
           [GetWebhook "keep-datadog-webhook-integration-acme"; ListMonitors],
         inr tt).
Proof.
  assert (∃ w1, setup_webhook "acme" Sample.keep_api_url "secret" true
                  (World.mk Sample.full_access []) = (w1, inr tt)) as [w1 H1]
    by (eexists; vm_compute; reflexivity).
  exists w1. split; [exact H1|].
  apply (setup_webhook_patches_once "acme" Sample.keep_api_url "secret"
           Sample.full_access w1);
    [reflexivity | reflexivity | intros i; reflexivity | exact H1].
Defined.

Lemma alert_status_stripped_witness :
  ∃ a, (format_alert Sample.ms_str Sample.combine Sample.payload).2 = Some a
       ∧ strip_brackets (AlertDto.status a) = AlertDto.status a.
Proof.
  assert (∃ a, (format_alert Sample.ms_str Sample.combine Sample.payload).2 = Some a)
    as [a Ha] by (eexists; vm_compute; reflexivity).
  exists a. split; [exact Ha|].
  apply (alert_status_stripped Sample.isoformat Sample.ms_str Sample.combine a).
  right. by exists Sample.payload.
Defined.

Lemma mute_unmute_scope_witness :
  ∃ c u,
    mute_monitor MoreSamples.int_of Z MoreSamples.fromisoformat MoreSamples.timestamp
      (PyStr "7") ["*"] (EndStr Z "1970-01-02T00:00:00") = Some c
    ∧ unmute_monitor MoreSamples.int_of (PyStr "7") ["*"] = Some u
    ∧ MuteCall.scope c = ""
    ∧ UnmuteCall.scope u = "*".
Proof.
  eexists _, _. split; [vm_compute; reflexivity|]. split; [vm_compute; reflexivity|].
  eapply (mute_unmute_scope MoreSamples.int_of Z MoreSamples.fromisoformat
            MoreSamples.timestamp (PyStr "7") ["*"] (EndStr Z "1970-01-02T00:00:00"));
    reflexivity.
Defined.

Lemma mute_webhook_alert_scope_witness :
  ∃ a c,
    (format_alert Sample.ms_str Sample.combine MoreSamples.wildcard_payload).2 = Some a
    ∧ mute_monitor MoreSamples.int_of Z MoreSamples.fromisoformat MoreSamples.timestamp
        (PyInt 7) (AlertDto.groups a) (EndDatetime Z 86400) = Some c
    ∧ MuteCall.scope c = "".
Proof.
  assert (∃ a, (format_alert Sample.ms_str Sample.combine
                  MoreSamples.wildcard_payload).2 = Some a)
    as [a Ha] by (eexists; vm_compute; reflexivity).
  assert (∃ c, mute_monitor MoreSamples.int_of Z MoreSamples.fromisoformat
                 MoreSamples.timestamp (PyInt 7) (AlertDto.groups a)
                 (EndDatetime Z 86400) = Some c) as [c Hc].
  { vm_compute in Ha. injection Ha as <-. eexists. vm_compute. reflexivity. }
  exists a, c. split; [exact Ha|]. split; [exact Hc|].
  rewrite (mute_webhook_alert_scope MoreSamples.int_of Z MoreSamples.fromisoformat
             MoreSamples.timestamp Sample.ms_str Sample.combine
             MoreSamples.wildcard_payload a (PyInt 7) (EndDatetime Z 86400) c Ha Hc).
  reflexivity.
Defined.

Lemma validate_scopes_verdicts_witness :
  ∃ self' scopes,
    MoreSamples.validate (mkWindow None None) = (self', inr scopes)
    ∧ scopes !! "create_webhooks" = Some Granted
    ∧ scopes !! "monitors_write" = Some Granted
    ∧ is_Some (scopes !! "metrics_read").
Proof.
  destruct (validate_scopes_verdicts MoreSamples.int_of_str Z Z MoreSamples.time_time
              MoreSamples.time_minus MoreSamples.fromtimestamp MoreSamples.list_logs
              MoreSamples.query_metrics (inr tt) (inr 12345) (λ _, inr tt)
              MoreSamples.probe_create_webhooks_integration
              MoreSamples.probe_query_metrics (inr tt) MoreSamples.reason
              (mkWindow None None))
    as (self' & scopes & Hrun & Hdom & Hverdict & _ & Hwebhooks & Hwrite).
  { intros scope Hin. unfold PROVIDER_SCOPES in Hin.
    repeat (apply elem_of_cons in Hin as [->|Hin]; [vm_compute; discriminate|]).
    by apply elem_of_nil in Hin. }
  exists self', scopes. split; [exact Hrun|]. split; [|split].
  - apply Hwebhooks. intros e [= <-]. discriminate.
  - apply Hwrite. exists 12345. split; reflexivity.
  - pose proof (Hverdict (ProviderScope.mk "metrics_read" "View custom metrics." false
                  None None None)) as Hmetrics.
    cbn [ProviderScope.name] in Hmetrics. rewrite Hmetrics; [by eexists|].
    unfold PROVIDER_SCOPES. repeat constructor.
Defined.

(** ** Further properties: when provisioning raises *)

Lemma registration_returns_iff webhook_name keep_api_url api_key v cs :
  (setup_webhook_registration webhook_name keep_api_url api_key (World.mk v cs)).2
  = inr tt
  ↔ Vendor.can_create_webhook v = true
    ∨ (Vendor.can_get_webhook v = true
       ∧ ∃ r, Vendor.webhooks v !! webhook_name = Some r
              ∧ (Registration.url r = keep_api_url
                 ∨ Vendor.can_update_webhook v = true)).
Proof.
  unfold setup_webhook_registration, try_except, get_webhooks_integration,
    update_webhooks_integration, create_webhooks_integration, request,
    mbind, Api_bind, mret, Api_ret, raise, not_found_or_forbidden; simpl.
  destruct (Vendor.can_get_webhook v) eqn:Hget;
  destruct (Vendor.can_create_webhook v) eqn:Hcreate;
  destruct (Vendor.can_update_webhook v) eqn:Hupdate;
  destruct (Vendor.webhooks v !! webhook_name) as [r|] eqn:Hr; simpl;
  try case_bool_decide; simpl;
  repeat progress
    (rewrite ?Hget, ?Hcreate, ?Hupdate, ?Hr,
       ?errors_already_exists, ?errors_forbidden, ?errors_not_found; simpl);
  (split;
   [ intros Hrun; try done; first [by left | right; split; [done|]; eauto]
   | intros [?|(? & r' & ? & [?|?])]; simplify_eq; done ]).
Qed.

(** X23. [setup_webhook] returns exactly when the webhook can be created,
    or can be looked up and either has the desired URL already or can be
    updated, and, if the monitors are to be patched, they can be listed; a
    monitor that cannot be updated never makes the call raise. *)
Theorem setup_webhook_returns_iff tenant_id keep_api_url api_key setup_alerts v cs :
  (setup_webhook tenant_id keep_api_url api_key setup_alerts (World.mk v cs)).2 = inr tt
  ↔ (Vendor.can_create_webhook v = true
     ∨ (Vendor.can_get_webhook v = true
        ∧ ∃ r, Vendor.webhooks v
                 !! (KEEP_DATADOG_WEBHOOK_INTEGRATION_NAME +:+ "-" +:+ tenant_id)
               = Some r
               ∧ (Registration.url r = keep_api_url
                  ∨ Vendor.can_update_webhook v = true)))
    ∧ (setup_alerts = false ∨ Vendor.can_list_monitors v = true).
Proof.
  rewrite setup_webhook_phases.
  pose proof (registration_returns_iff
                (KEEP_DATADOG_WEBHOOK_INTEGRATION_NAME +:+ "-" +:+ tenant_id)
                keep_api_url api_key v cs) as Hreg.
  destruct (setup_webhook_registration _ keep_api_url api_key (World.mk v cs))
    as [[v' cs'] [e|[]]] eqn:Hrun; simpl in Hreg.
  - simpl. split; [done|]. intros [Hok _]. apply Hreg in Hok. done.
  - destruct (registration_returns _ _ _ _ _ _ Hrun) as (Hp & _).
    destruct Hp as (_ & _ & _ & Hlist & _). simpl in Hlist.
    destruct (alerts_phase setup_alerts
                (KEEP_DATADOG_WEBHOOK_INTEGRATION_NAME +:+ "-" +:+ tenant_id)
                (World.mk v' cs')) as (v2 & cs2 & -> & _).
    simpl. rewrite Hlist.
    destruct setup_alerts, (Vendor.can_list_monitors v); simpl.
    + split; [intros _; split; [by apply Hreg|by right]|done].
    + split; [done|]. by intros [_ [?|?]].
    + split; [intros _; split; [by apply Hreg|by left]|done].
    + split; [intros _; split; [by apply Hreg|by left]|done].
Qed.

(** ** The severity of the title on the two paths *)

(** C5 at the failing input: for the title "[P1] [Alert] CPU high" and no
    [severity] field, the polled path strips the brackets of the severity
    token before the table lookup and gives critical, while the webhook path
    looks the token up with its brackets and gives [None], although it strips
    them from the status token of the same title. *)
Theorem format_alert_title_severity_unstripped :
  Sample.payload !! "severity" = None
  ∧ Sample.payload !! "title" = Some (PyStr (Event.title Sample.cpu_event))
  ∧ Event.title Sample.cpu_event = "[P1] [Alert] CPU high"
  ∧ AlertDto.severity
    <$> (_get_alerts Sample.isoformat Sample.combine
           [Sample.cpu_monitor] [Sample.cpu_event]).1
    = [Some "critical"]
  ∧ AlertDto.severity
    <$> (format_alert Sample.ms_str Sample.combine Sample.payload).2
    = Some None
  ∧ AlertDto.status
    <$> (format_alert Sample.ms_str Sample.combine Sample.payload).2
    = Some "Alert".
Proof. repeat split; vm_compute; reflexivity. Qed.
